(** * ScienceLabAssistant: report ingestion and AI-response parsing

    A shallow embedding of the pipeline of [src/app.py]: PDF text
    extraction, the gate in front of the AI evaluation, the AI client
    [query_ai], the score extraction and the heading-driven section scan,
    then the rest of the script around them (start-up, glossary,
    experiment assistant, upload), followed by the properties of the
    specification that concern them and by further properties that the
    code shows.

    Conventions.
    - A Python [str] is a list of Unicode code points ([list N]).
    - Code that can raise returns a [res]; the exception is a value.
    - Calls into Streamlit and the network are recorded as events, in the
      order in which the script issues them; what the libraries do with
      their arguments is not part of the model.
    - The PDF library and the remote endpoint are inputs: a document is
      what [pdfplumber] returns for it, the network is a function from
      request to response.
    - [int] has the bound of CPython 3.11 on the length of a digit
      string (4300 digits, which the script leaves as it is), and the
      true division of line 516 overflows as a float does. Memory is
      outside the model.
    - Of the libraries that can reject what the script gives them, the
      model keeps the check: [st.progress] wants a value from 0.0 to 1.0,
      and the [FPDF] object with its built-in font wants texts of
      latin-1 characters. *)

From Stdlib Require Import ZArith NArith List String Ascii Lia Bool.
From stdpp Require Import gmap list.

Set Warnings "-register-all".

Local Open Scope N_scope.

(** ** Python values used by the script *)

Module Py.

(** An ASCII literal of the source as a [str]. *)
Definition u (s : string) : list N :=
  List.map N_of_ascii (list_ascii_of_string s).

Definition NL : N := 0x0a.

(** Exceptions the modelled code can meet. *)
Inductive exn :=
| ValueError
| TypeError
| KeyError
| IndexError
| AttributeError
| OverflowError
| UnicodeEncodeError
| JSONDecodeError
| HTTPError (status : Z) (body : list N)
| StreamlitAPIException
| LibraryError (msg : list N).

Inductive res (A : Type) :=
| Ok (a : A)
| Raise (e : exn).
Arguments Ok {A} a.
Arguments Raise {A} e.

Definition bind {A B} (m : res A) (k : A -> res B) : res B :=
  match m with
  | Ok a => k a
  | Raise e => Raise e
  end.

Notation "'let!' x ':=' m 'in' k" := (bind m (fun x => k))
  (at level 10, x name, m at level 100, k at level 200).

(** [str.isspace] on one code point, which is also the class [\s] of
    [re] on [str] patterns (CPython's [_PyUnicode_IsWhitespace]). *)
Definition whitespace_points : list N :=
  [0x09; 0x0a; 0x0b; 0x0c; 0x0d; 0x1c; 0x1d; 0x1e; 0x1f; 0x20; 0x85; 0xa0;
   0x1680; 0x2000; 0x2001; 0x2002; 0x2003; 0x2004; 0x2005; 0x2006; 0x2007;
   0x2008; 0x2009; 0x200a; 0x2028; 0x2029; 0x202f; 0x205f; 0x3000].

Definition isspace (c : N) : bool := existsb (N.eqb c) whitespace_points.

(** Runs of decimal digits (general category Nd, Unicode 14): first code
    point and length; the value of a digit is its offset modulo ten. *)
Definition decimal_runs : list (N * N) :=
  [(0x30, 10); (0x660, 10); (0x6f0, 10); (0x7c0, 10); (0x966, 10);
   (0x9e6, 10); (0xa66, 10); (0xae6, 10); (0xb66, 10); (0xbe6, 10);
   (0xc66, 10); (0xce6, 10); (0xd66, 10); (0xde6, 10); (0xe50, 10);
   (0xed0, 10); (0xf20, 10); (0x1040, 10); (0x1090, 10); (0x17e0, 10);
   (0x1810, 10); (0x1946, 10); (0x19d0, 10); (0x1a80, 10); (0x1a90, 10);
   (0x1b50, 10); (0x1bb0, 10); (0x1c40, 10); (0x1c50, 10); (0xa620, 10);
   (0xa8d0, 10); (0xa900, 10); (0xa9d0, 10); (0xa9f0, 10); (0xaa50, 10);
   (0xabf0, 10); (0xff10, 10); (0x104a0, 10); (0x10d30, 10); (0x11066, 10);
   (0x110f0, 10); (0x11136, 10); (0x111d0, 10); (0x112f0, 10); (0x11450, 10);
   (0x114d0, 10); (0x11650, 10); (0x116c0, 10); (0x11730, 10); (0x118e0, 10);
   (0x11950, 10); (0x11c50, 10); (0x11d50, 10); (0x11da0, 10); (0x16a60, 10);
   (0x16ac0, 10); (0x16b50, 10); (0x1d7ce, 50); (0x1e140, 10); (0x1e2f0, 10);
   (0x1e950, 10); (0x1fbf0, 10)].

Definition in_run (c : N) (r : N * N) : bool :=
  (fst r <=? c) && (c <? fst r + snd r).

(** [unicodedata.decimal]: the digit value, when there is one. *)
Definition decimal (c : N) : option N :=
  match List.find (in_run c) decimal_runs with
  | Some r => Some ((c - fst r) mod 10)
  | None => None
  end.

(** [str.isdecimal] on one code point, the class [\d] of [re]. *)
Definition isdecimal (c : N) : bool :=
  match decimal c with Some _ => true | None => false end.

(** Truth value of a [str]. *)
Definition truthy (s : list N) : bool :=
  match s with [] => false | _ :: _ => true end.

Fixpoint lstrip (s : list N) : list N :=
  match s with
  | c :: t => if isspace c then lstrip t else s
  | [] => []
  end.

Definition rstrip (s : list N) : list N := rev (lstrip (rev s)).

(** [s.strip()] *)
Definition strip (s : list N) : list N := rstrip (lstrip s).

(** [s.split('\n')]: one more piece than there are newlines. *)
Fixpoint split_nl (s : list N) : list (list N) :=
  match s with
  | [] => [[]]
  | c :: t =>
      if c =? NL then [] :: split_nl t
      else match split_nl t with
           | l :: ls => (c :: l) :: ls
           | [] => [[c]]
           end
  end.

(** ['\n'.join(lines)] *)
Fixpoint join_nl (lines : list (list N)) : list N :=
  match lines with
  | [] => []
  | [l] => l
  | l :: ls => l ++ NL :: join_nl ls
  end.

Fixpoint startswith (p s : list N) : bool :=
  match p, s with
  | [], _ => true
  | a :: p', b :: s' => (a =? b) && startswith p' s'
  | _ :: _, [] => false
  end.

(** [p in s] for two strings. *)
Fixpoint contains (p s : list N) : bool :=
  startswith p s ||
  match s with
  | [] => false
  | _ :: t => contains p t
  end.

(** White space that [int] skips around its argument: the code points of
    [isspace] except the four ASCII separators 0x1c to 0x1f. *)
Definition int_space (c : N) : bool :=
  isspace c && negb ((0x1c <=? c) && (c <=? 0x1f)).

Fixpoint int_lskip (s : list N) : list N :=
  match s with
  | c :: t => if int_space c then int_lskip t else s
  | [] => []
  end.

(** Digit groups separated by single underscores. *)
Fixpoint int_digits (acc : Z) (prev_digit : bool) (s : list N) : option Z :=
  match s with
  | [] => if prev_digit then Some acc else None
  | c :: t =>
      match decimal c with
      | Some d => int_digits (10 * acc + Z.of_N d) true t
      | None =>
          if (c =? 0x5f) && prev_digit then int_digits acc false t else None
      end
  end.

(** [sys.int_info.default_max_str_digits]: the longest digit string that
    [int] converts. The digits count, leading zeros too; underscores, the
    sign and the white space around do not. *)
Definition int_max_str_digits : nat := 4300.

(** [int(s)] for a [str] in base ten. A string that is no number and a
    number of too many digits both raise [ValueError]. *)
Definition int (s : list N) : res Z :=
  let s := rev (int_lskip (rev (int_lskip s))) in
  let '(neg, body) :=
    match s with
    | c :: t =>
        if c =? 0x2d then (true, t)
        else if c =? 0x2b then (false, t)
        else (false, s)
    | [] => (false, s)
    end in
  if (int_max_str_digits <? length (List.filter isdecimal body))%nat then
    Raise ValueError
  else
    match int_digits 0 false body with
    | Some v => Ok (if neg then (- v)%Z else v)
    | None => Raise ValueError
    end.

(** [n / 10] for an [int]: the float nearest to the quotient, kept as the
    number of tenths. The quotient of an [n] from ten times
    [2^1024 - 2^970] on is beyond the largest float. *)
Definition truediv_10 (n : Z) : res Z :=
  if (10 * (2 ^ 1024 - 2 ^ 970) <=? Z.abs n)%Z then Raise OverflowError
  else Ok n.

End Py.

Import Py.

(** ** The part of [re] that the script uses *)

Module Re.

(** One character of a pattern: a literal, [\s] or [\d]. *)
Inductive atom :=
| Chr (c : N)
| Space
| Digit.

(** An atom taken once, or under the greedy quantifiers [*] and [+]. *)
Inductive node :=
| One (a : atom)
| Star (a : atom)
| Plus (a : atom).

(** A pattern is a sequence of nodes; [captured] marks those inside the
    parentheses of group 1. *)
Record piece := { what : node; captured : bool }.

Definition ascii_lower (c : N) : N :=
  if (0x41 <=? c) && (c <=? 0x5a) then c + 32 else c.

(** [re.IGNORECASE] for an ASCII literal [p] against a code point [c] of
    the subject: equal up to ASCII case, or one of the four other letters
    that lower-case or case-fold to an ASCII letter (U+017F for s, U+212A
    for k, U+0130 and U+0131 for i). *)
Definition ieq (p c : N) : bool :=
  let lp := ascii_lower p in
  (ascii_lower c =? lp)
  || ((lp =? 0x73) && (c =? 0x17f))
  || ((lp =? 0x6b) && (c =? 0x212a))
  || ((lp =? 0x69) && ((c =? 0x130) || (c =? 0x131))).

Definition accepts (a : atom) (c : N) : bool :=
  match a with
  | Chr p => ieq p c
  | Space => isspace c
  | Digit => isdecimal c
  end.

Definition keep (g : bool) (cap : list N) (c : N) : list N :=
  if g then cap ++ [c] else cap.

(** A greedy repetition of [a] in front of the continuation [k]: take one
    more character when that leads to a match, give it back otherwise. *)
Fixpoint greedy (a : atom) (g : bool)
    (k : list N -> list N -> option (list N))
    (s cap : list N) : option (list N) :=
  match s with
  | c :: t =>
      if accepts a c then
        match greedy a g k t (keep g cap c) with
        | Some r => Some r
        | None => k s cap
        end
      else k s cap
  | [] => k [] cap
  end.

(** Backtracking match of pattern [p] at the start of [s]; the result is
    the text of group 1. *)
Fixpoint run (p : list piece) (s cap : list N) : option (list N) :=
  match p with
  | [] => Some cap
  | {| what := One a; captured := g |} :: p' =>
      match s with
      | c :: t => if accepts a c then run p' t (keep g cap c) else None
      | [] => None
      end
  | {| what := Star a; captured := g |} :: p' => greedy a g (run p') s cap
  | {| what := Plus a; captured := g |} :: p' =>
      match s with
      | c :: t =>
          if accepts a c then greedy a g (run p') t (keep g cap c) else None
      | [] => None
      end
  end.

(** [re.search(p, s, re.IGNORECASE)]: the match at the leftmost position
    that has one; [None] when no position has. The value is [group(1)]. *)
Fixpoint search (p : list piece) (s : list N) : option (list N) :=
  match run p s [] with
  | Some g => Some g
  | None =>
      match s with
      | [] => None
      | _ :: t => search p t
      end
  end.

Definition lit (s : string) : list piece :=
  List.map (fun c => {| what := One (Chr c); captured := false |}) (u s).

End Re.

(** ** JSON values and the HTTP exchange *)

Module Http.

(** A decoded JSON document. Of a float only its being zero is kept. An
    object keeps its members in order; the last binding of a key wins, as
    in [json.loads]. *)
Inductive json :=
| JNull
| JBool (b : bool)
| JInt (z : Z)
| JFloat (zero : bool)
| JStr (s : list N)
| JArr (items : list json)
| JObj (members : list (list N * json)).

Fixpoint member (k : list N) (members : list (list N * json)) : option json :=
  match members with
  | [] => None
  | (k', v) :: rest =>
      match member k rest with
      | Some w => Some w
      | None => if decide (k = k') then Some v else None
      end
  end.

(** [v[k]] for a string key. *)
Definition getitem_str (v : json) (k : list N) : res json :=
  match v with
  | JObj members =>
      match member k members with
      | Some x => Ok x
      | None => Raise KeyError
      end
  | _ => Raise TypeError
  end.

(** [v[0]] *)
Definition getitem_0 (v : json) : res json :=
  match v with
  | JArr (x :: _) => Ok x
  | JArr [] => Raise IndexError
  | JStr (c :: _) => Ok (JStr [c])
  | JStr [] => Raise IndexError
  | JObj _ => Raise KeyError
  | _ => Raise TypeError
  end.

(** Truth value of what [query_ai] returns; [JNull] is [None]. *)
Definition json_truthy (v : json) : bool :=
  match v with
  | JNull => false
  | JBool b => b
  | JInt z => negb (z =? 0)%Z
  | JFloat zero => negb zero
  | JStr s => truthy s
  | JArr items => match items with [] => false | _ => true end
  | JObj members => match members with [] => false | _ => true end
  end.

(** The arguments of [requests.post]. The temperature 0.7 is kept as
    the fraction 7/10. *)
Record request := {
  url : list N;
  authorization : list N;
  content_type : list N;
  model : list N;
  messages : list (list N * list N);
  temperature : Z * Z;
  timeout : Z
}.

(** What the script reads of a [requests.Response]: the status, the
    body text and the outcome of [response.json()]. *)
Record response := {
  status_code : Z;
  text : list N;
  json_body : res json
}.

(** [response.raise_for_status()] *)
Definition raise_for_status (r : response) : res unit :=
  if ((400 <=? status_code r) && (status_code r <? 600))%Z
  then Raise (HTTPError (status_code r) (text r))
  else Ok tt.

End Http.

Import Http.

(** ** The script *)

Module App.

Definition API_URL : list N :=
  u "https://api.groq.com/openai/v1/chat/completions".
Definition MODEL : list N := u "llama3-70b-8192".

Definition DQ : N := 0x22.

(** The texts given to [st.error] and [st.success]:
    - [InvalidApiKey]: the "Invalid API Key!" text of lines 190-199;
    - [ApiError]: "API Error: status - body" of line 205;
    - [ConnectError]: "Error connecting to AI service: ..." of line 208;
    - [PdfReadError]: "Error reading PDF: ..." of line 407;
    - [PdfExtracted]: "PDF text extracted successfully!" of line 405;
    - [AnalysisComplete]: "Analysis Complete!" of line 485. *)
Inductive message :=
| InvalidApiKey
| ApiError (status : Z) (body : list N)
| ConnectError (e : exn)
| PdfReadError (e : exn)
| PdfExtracted
| AnalysisComplete.

(** What a run of the script does to the outside, in order:
    [requests.post], [st.error], [st.success], [st.balloons], the three
    parts of the score card (the heading "score/10" of lines 501-504,
    the progress bar of line 516 with the score it was drawn for, the
    style with the colour of lines 517-525), [st.markdown], [st.write],
    [st.expander] with what is shown inside, the tip box around a
    follow-up answer, and the sample report of the [else] branch. *)
Inductive event :=
| Post (req : request)
| StError (m : message)
| StSuccess (m : message)
| StBalloons
| ScoreHeading (score : Z)
| StProgress (score : Z)
| ProgressColor (color : list N)
| StMarkdown (body : list N)
| StWrite (body : list N)
| Expander (label : list N) (inside : list event)
| Answer (v : json)
| SampleReport.

(** A piece of script: the events issued, then a value or the exception
    that ended it. *)
Definition io (A : Type) : Type := (list event * res A)%type.

Definition io_bind {A B} (m : io A) (k : A -> io B) : io B :=
  match m with
  | (ev, Ok a) => let '(ev', r) := k a in (ev ++ ev', r)
  | (ev, Raise e) => (ev, Raise e)
  end.

Definition emit (l : list event) : io unit := (l, Ok tt).
Definition lift {A} (r : res A) : io A := ([], r).

Notation "'do!' x ':=' m 'in' k" := (io_bind m (fun x => k))
  (at level 10, x name, m at level 100, k at level 200).

(** *** The AI client, lines 172-209 *)

Definition chat_request (api_key prompt : list N) : request :=
  {| url := API_URL;
     authorization := u "Bearer " ++ api_key;
     content_type := u "application/json";
     model := MODEL;
     messages :=
       [ (u "system",
          u "You are a helpful science teacher providing detailed explanations.");
         (u "user", prompt) ];
     temperature := (7, 10)%Z;
     timeout := 120%Z |}.

(** How the body of the [try] ends. *)
Inductive attempt :=
| Returned (v : json)
| Unauthorized
| Raised (e : exn).

Definition try_post (net : request -> res response) (req : request) : attempt :=
  match net req with
  | Raise e => Raised e
  | Ok response =>
      if (status_code response =? 401)%Z then Unauthorized
      else
        match
          (let! _ := raise_for_status response in
           let! body := json_body response in
           let! choices := getitem_str body (u "choices") in
           let! first := getitem_0 choices in
           let! msg := getitem_str first (u "message") in
           getitem_str msg (u "content"))
        with
        | Ok v => Returned v
        | Raise e => Raised e
        end
  end.

(** [query_ai(prompt)]: the events and the value returned ([JNull] for
    [None]). [net] is the remote endpoint as [requests.post] sees it. *)
Definition query_ai (net : request -> res response) (api_key prompt : list N)
    : list event * json :=
  let req := chat_request api_key prompt in
  match try_post net req with
  | Returned v => ([Post req], v)
  | Unauthorized => ([Post req; StError InvalidApiKey], JNull)
  | Raised (HTTPError status body) =>
      ([Post req; StError (ApiError status body)], JNull)
  | Raised e => ([Post req; StError (ConnectError e)], JNull)
  end.

(** *** PDF extraction, lines 400-407 *)

(** A page is the outcome of [page.extract_text()]: a [str] (empty for a
    page without characters) or an exception. A document is the outcome
    of [pdfplumber.open] and [pdf.pages]. *)
Definition page : Type := res (list N).
Definition pdf : Type := res (list page).

(** The [for] loop over the pages: [lab_text += page.extract_text() + "\n"].
    An exception leaves [lab_text] as the pages before it made it. *)
Fixpoint read_pages (pages : list page) (lab_text : list N)
    : list N * option exn :=
  match pages with
  | [] => (lab_text, None)
  | Ok t :: rest => read_pages rest (lab_text ++ (t ++ [NL]))
  | Raise e :: _ => (lab_text, Some e)
  end.

(** The PDF branch: the events and the value of [lab_text] after it. *)
Definition extract_pdf (doc : pdf) : list event * list N :=
  match doc with
  | Raise e => ([StError (PdfReadError e)], [])
  | Ok pages =>
      match read_pages pages [] with
      | (lab_text, None) => ([StSuccess PdfExtracted], lab_text)
      | (lab_text, Some e) => ([StError (PdfReadError e)], lab_text)
      end
  end.

(** *** Score extraction *)

(** [r"Completeness Score:\s*(\d+)/10"] *)
Definition score_pattern : list Re.piece :=
  Re.lit "Completeness Score:"
  ++ [ {| Re.what := Re.Star Re.Space; Re.captured := false |};
       {| Re.what := Re.Plus Re.Digit; Re.captured := true |} ]
  ++ Re.lit "/10".

(** Lines 489-490:
    [score_match = re.search(..., result, re.IGNORECASE)];
    [score = int(score_match.group(1)) if score_match else None]. *)
Definition extract_score (raw : list N) : res (option Z) :=
  let score_match := Re.search score_pattern raw in
  match score_match with
  | Some g => let! n := int g in Ok (Some n)
  | None => Ok None
  end.


(** *** Section scan, lines 533-551 *)

Definition K_missing : list N := u "Missing Sections".
Definition K_tips : list N := u "Improvement Tips".
Definition K_feedback : list N := u "Detailed Feedback".

(** The loop's variables: [current_section] and the dict [sections],
    whose values are [None] or a list of lines. *)
Record scan_state := {
  current_section : option (list N);
  sections : gmap (list N) (option (list (list N)))
}.

(** [sections = {"Missing Sections": None, "Improvement Tips": None,
    "Detailed Feedback": None}] and [current_section = None]. *)
Definition scan_start : scan_state :=
  {| current_section := None;
     sections :=
       <[K_missing := None]> (<[K_tips := None]> (<[K_feedback := None]> ∅)) |}.

(** [current_section = name; sections[current_section] = []] *)
Definition open_section (name : list N) (st : scan_state) : scan_state :=
  {| current_section := Some name;
     sections := <[name := Some []]> (sections st) |}.

(** [sections[current_section].append(line)] *)
Definition append_line (name line : list N) (st : scan_state) : res scan_state :=
  match sections st !! name with
  | None => Raise KeyError
  | Some None => Raise AttributeError
  | Some (Some lines) =>
      Ok {| current_section := current_section st;
            sections := <[name := Some (lines ++ [line])]> (sections st) |}
  end.

(** One turn of the loop body: the [if]/[elif] chain on [line]. *)
Definition scan_line (st : scan_state) (line : list N) : res scan_state :=
  if contains (u "### Missing Sections:") line then
    Ok (open_section K_missing st)
  else if contains (u "### Improvement Tips:") line then
    Ok (open_section K_tips st)
  else if contains (u "### Detailed Feedback:") line then
    Ok (open_section K_feedback st)
  else
    match current_section st with
    | Some name =>
        if truthy name && truthy (strip line) then append_line name line st
        else Ok st
    | None => Ok st
    end.

Fixpoint scan (lines : list (list N)) (st : scan_state) : res scan_state :=
  match lines with
  | [] => Ok st
  | line :: rest => let! st' := scan_line st line in scan rest st'
  end.

(** [for line in result.split('\n'): ...], from the initial dict. *)
Definition split_sections (raw : list N)
    : res (gmap (list N) (option (list (list N)))) :=
  let! st := scan (split_nl raw) scan_start in Ok (sections st).

(** *** The parsing stage *)

(** The outcome of parsing one model response: the score of lines
    489-490 and the dict of lines 533-551. *)
Record AnalysisResult := {
  completenessScore : option Z;
  sectionLines : gmap (list N) (option (list (list N)))
}.

Definition parse (raw : list N) : res AnalysisResult :=
  let! score := extract_score raw in
  let! secs := split_sections raw in
  Ok {| completenessScore := score; sectionLines := secs |}.

(** *** Display of the sections and of the full response, lines 553-570 *)

Definition div (class body : list N) : list N :=
  u "<div class=" ++ [DQ] ++ class ++ [DQ] ++ u ">" ++ body ++ u "</div>".

(** [sections[name]] *)
Definition getitem (d : gmap (list N) (option (list (list N)))) (name : list N)
    : res (option (list (list N))) :=
  match d !! name with
  | Some v => Ok v
  | None => Raise KeyError
  end.

(** Truth value of a dict entry: [None] and the empty list are false. *)
Definition filled (v : option (list (list N))) : option (list (list N)) :=
  match v with
  | Some (l :: ls) => Some (l :: ls)
  | _ => None
  end.

Definition show_sections (secs : gmap (list N) (option (list (list N))))
    (raw : list N) : io unit :=
  do! missing := lift (getitem secs K_missing) in
  do! _ := emit (match filled missing with
                 | Some lines =>
                     [ StMarkdown (u "### " ++ [0x1F50D] ++ u " Missing Sections");
                       StMarkdown (div (u "highlight") (join_nl lines)) ]
                 | None => []
                 end) in
  do! tips := lift (getitem secs K_tips) in
  do! _ := emit (match filled tips with
                 | Some lines =>
                     [ StMarkdown (u "### " ++ [0x1F4A1] ++ u " Improvement Tips");
                       StMarkdown (div (u "tip-box") (join_nl lines)) ]
                 | None => []
                 end) in
  do! feedback := lift (getitem secs K_feedback) in
  do! _ := emit (match filled feedback with
                 | Some lines =>
                     [ StMarkdown (u "### " ++ [0x1F4CB] ++ u " Detailed Feedback");
                       StWrite (join_nl lines) ]
                 | None => []
                 end) in
  emit [ Expander (u "View Full AI Analysis") [StMarkdown raw] ].

(** Lines 530-570: the scan, then the display. *)
Definition analysis_results (raw : list N) : io unit :=
  do! _ := emit [ StMarkdown (u "## " ++ [0x1F4DD] ++ u " Analysis Results") ] in
  do! secs := lift (split_sections raw) in
  show_sections secs raw.

(** *** The AI evaluation block, lines 445-616 *)

(** The f-string of lines 447-478. *)
Definition full_prompt (lab_text : list N) : list N :=
  join_nl
    [u "You are a science teacher evaluating a student's lab report. Please provide a comprehensive analysis:";
     u "        Lab Report:";
     u "        " ++ lab_text;
     u "        Evaluation Guidelines:";
     u "        1. **Section Check**: Identify which of these sections are present and which are missing:";
     u "            - Title";
     u "            - Objective";
     u "            - Hypothesis";
     u "            - Materials";
     u "            - Procedure";
     u "            - Observations";
     u "            - Results";
     u "            - Conclusion";
     u "            - References";
     u "        ";
     u "        2. **Completeness Score**: ";
     u "            - Assign a numerical score from 1-10 based on completeness";
     u "            - Justify the score based on missing sections and content quality";
     u "        ";
     u "        3. **Improvement Tips**:";
     u "            - For each missing section, explain why it's important";
     u "            - Provide specific suggestions for improvement (e.g., " ++ [DQ] ++ u "Try writing a more detailed observation section by including quantitative data" ++ [DQ] ++ u ")";
     u "            - Highlight any sections that need more detail or clarity";
     u "        ";
     u "        4. **Structure Response**:";
     u "            - Start with: " ++ [DQ] ++ u "### Missing Sections:" ++ [DQ];
     u "            - Then: " ++ [DQ] ++ u "### Completeness Score: X/10" ++ [DQ];
     u "            - Then: " ++ [DQ] ++ u "### Improvement Tips:" ++ [DQ];
     u "            - Finally: " ++ [DQ] ++ u "### Detailed Feedback:" ++ [DQ];
     u "        ";
     u "        Be concise but thorough in your analysis.";
     u "        "].

(** The f-string of lines 586-593. *)
Definition followup_prompt (lab_text user_question : list N) : list N :=
  join_nl
    [u "Lab Report:";
     u "                " ++ lab_text;
     u "                ";
     u "                Question: " ++ user_question;
     u "                ";
     u "                Answer the question based on the lab report. If the question can't be answered from the report, ";
     u "                suggest what information the student should add to answer it.";
     u "                "].

(** What the widgets of the block return in one run of the script. *)
Record clicks := {
  analyze_button : bool;
  ask_button : bool;
  user_question : list N
}.

Definition score_color (score : Z) : list N :=
  if (8 <=? score)%Z then u "#28b463"
  else if (5 <=? score)%Z then u "#f39c12"
  else u "#e74c3c".

(** [st.progress(value, text=...)] for a float given in tenths:
    Streamlit raises on a value outside 0.0 to 1.0. *)
Definition st_progress (tenths : Z) : res unit :=
  if ((0 <=? tenths) && (tenths <=? 10))%Z then Ok tt
  else Raise StreamlitAPIException.

(** The score card of lines 493-527 for a score that is not [None]. The
    argument [score/10] of line 516 is evaluated, then [st.progress]
    checks it, before the bar is drawn. *)
Definition score_card (score : Z) : io unit :=
  do! _ := emit [ScoreHeading score] in
  let color := score_color score in
  do! value := lift (truediv_10 score) in
  do! _ := lift (st_progress value) in
  emit [StProgress score; ProgressColor color].

(** Lines 484-570 for the value [result] of [query_ai]; [re.search]
    raises on a value that is no [str]. *)
Definition show_analysis (result : json) : io unit :=
  if json_truthy result then
    do! _ := emit [StSuccess AnalysisComplete; StBalloons] in
    match result with
    | JStr raw =>
        do! score := lift (extract_score raw) in
        do! _ := (match score with
                  | Some n => score_card n
                  | None => emit []
                  end) in
        analysis_results raw
    | _ => lift (Raise TypeError)
    end
  else emit [].

(** The block behind [if lab_text.strip():] and its [else]. Calls that
    only lay out the page are left out. *)
Definition ai_evaluation (net : request -> res response) (api_key : list N)
    (ui : clicks) (lab_text : list N) : io unit :=
  if truthy (strip lab_text) then
    let prompt := full_prompt lab_text in
    do! _ := (if analyze_button ui then
                let '(ev, result) := query_ai net api_key prompt in
                do! _ := emit ev in
                show_analysis result
              else emit []) in
    if (ask_button ui || truthy (user_question ui))
       && truthy (strip (user_question ui)) then
      let '(ev, followup_response) :=
        query_ai net api_key (followup_prompt lab_text (user_question ui)) in
      do! _ := emit ev in
      if json_truthy followup_response then
        emit [ StMarkdown (u "### " ++ [0x1F4AC] ++ u " AI Response");
               Answer followup_response ]
      else emit []
    else emit []
  else emit [SampleReport].

(** The requests a run sent to the endpoint. *)
Definition posts (events : list event) : list request :=
  omap (fun e => match e with Post req => Some req | _ => None end) events.

End App.

Import App.

(** ** Notions used to state the properties *)

Module Notions.

(** The number a run of decimal digits denotes. *)
Definition digit_value (c : N) : Z :=
  match decimal c with
  | Some d => Z.of_N d
  | None => 0%Z
  end.

Definition value_of_digits (g : list N) : Z :=
  fold_left (fun acc c => (10 * acc + digit_value c)%Z) g 0%Z.

(** [l] is the text [p] up to letter case, as [re.IGNORECASE] sees it. *)
Definition same_text (p l : list N) : Prop :=
  Forall2 (fun a c => Re.ieq a c = true) p l.

(** The pattern of the script matches at the start of [s] with group 1
    equal to [g]: the words, any white space, the digits [g], "/10". *)
Definition score_match_at (s g : list N) : Prop :=
  exists l ws rest,
    s = l ++ ws ++ g ++ u "/10" ++ rest
    /\ same_text (u "Completeness Score:") l
    /\ Forall (fun c => isspace c = true) ws
    /\ Forall (fun c => isdecimal c = true) g
    /\ g <> [].

(** The leftmost match of the pattern in [raw]: it starts after [pre],
    its group 1 is [g], and no position in front of it has a match. *)
Definition first_score_match (raw pre s g : list N) : Prop :=
  raw = pre ++ s
  /\ score_match_at s g
  /\ forall pre1 s1 g1,
       raw = pre1 ++ s1 -> (length pre1 < length pre)%nat ->
       ~ score_match_at s1 g1.

(** The pattern as the specification writes it, with one blank between
    the colon and the digits: [Completeness Score: <digits>/10]. *)
Definition stated_score_pattern : list Re.piece :=
  Re.lit "Completeness Score: "
  ++ [ {| Re.what := Re.Plus Re.Digit; Re.captured := true |} ]
  ++ Re.lit "/10".

(** The section a line opens, by the [if]/[elif] chain of the scan. *)
Definition heading (line : list N) : option (list N) :=
  if contains (u "### Missing Sections:") line then Some K_missing
  else if contains (u "### Improvement Tips:") line then Some K_tips
  else if contains (u "### Detailed Feedback:") line then Some K_feedback
  else None.

Definition plain (line : list N) : Prop := heading line = None.

(** The test [line.strip()] of the scan. *)
Definition nonblank (line : list N) : bool := truthy (strip line).

(** The lines in front of the first heading line. *)
Fixpoint until_heading (lines : list (list N)) : list (list N) :=
  match lines with
  | [] => []
  | l :: rest =>
      match heading l with
      | Some _ => []
      | None => l :: until_heading rest
      end
  end.

(** What a section holds of the lines that follow its heading. *)
Definition body (lines : list (list N)) : list (list N) :=
  List.filter nonblank (until_heading lines).

(** The words "Completeness Score:" occur in [line], in any letter case. *)
Definition mentions_score (line : list N) : bool :=
  match Re.search (Re.lit "Completeness Score:") line with
  | Some _ => true
  | None => false
  end.

(** No newline inside a line. *)
Definition one_line (line : list N) : Prop := ~ In NL line.

(** The three keys of the dict of sections. *)
Definition is_key (name : list N) : Prop :=
  name = K_missing \/ name = K_tips \/ name = K_feedback.

(** A literal as a pattern, the characters kept of a repetition, and the
    tail of the score pattern. *)
Definition chrs (l : list N) : list Re.piece :=
  List.map (fun c => {| Re.what := Re.One (Re.Chr c); Re.captured := false |}) l.

Definition taken (g : bool) (w : list N) : list N := if g then w else [].

Definition digits_then_slash : list Re.piece :=
  {| Re.what := Re.Plus Re.Digit; Re.captured := true |} :: chrs (u "/10").

(** What the loop keeps true of its two variables: the cursor names a
    key whose entry is a list, the three keys stay in the dict, and no
    list holds a blank line. *)
Definition wf (st : scan_state) : Prop :=
  (forall n, current_section st = Some n ->
     is_key n /\ exists l, sections st !! n = Some (Some l))
  /\ (forall n, is_key n -> is_Some (sections st !! n))
  /\ (forall n l, sections st !! n = Some (Some l) ->
        Forall (fun x => nonblank x = true) l).

(** The loop body with the exception left out: the state is kept when
    [scan_line] raises. *)
Definition step (st : scan_state) (line : list N) : scan_state :=
  match scan_line st line with
  | Ok st' => st'
  | Raise _ => st
  end.

End Notions.

Import Notions.

(** ** The rest of the script: start-up, sidebar, the two modes *)

Module Pages.

(** How a run of the script ends: at its last line, at [st.stop()], or
    with an exception that nothing caught. *)
Inductive ctl (A : Type) :=
| Done (a : A)
| Stopped
| Failed (e : exn).
Arguments Done {A} a.
Arguments Stopped {A}.
Arguments Failed {A} e.

(** Texts shown outside the parts modelled in [App]:
    - [ApiKeyNotConfigured]: the error of lines 16-25;
    - [NeedNameAndHypothesis]: the warning of line 261;
    - [NoDefinition]: the warning of line 231;
    - [GuideGenerated]: the success of line 284;
    - [TesseractMissing]: the error of lines 419-430;
    - [OcrFailed]: "OCR Error: ..." of line 433;
    - [ImageFailed]: "Error processing image: ..." of line 436;
    - [ImageExtracted]: the success of line 417. *)
Inductive notice :=
| ApiKeyNotConfigured
| NeedNameAndHypothesis
| NoDefinition
| GuideGenerated
| TesseractMissing
| OcrFailed (e : exn)
| ImageFailed (e : exn)
| ImageExtracted.

(** The calls on the [FPDF] object of [generate_pdf_report]. *)
Inductive pdf_op :=
| AddPage
| SetFont (family style : list N) (size : Z)
| Cell (w h : Z) (txt : list N) (ln : bool) (align : list N)
| Ln (h : Z)
| MultiCell (w h : Z) (txt : json)
| Output (filename : list N).

(** What a run does to the outside: an event of the parts above, or
    [st.error], [st.warning], [st.success] with one of the notices,
    [st.balloons], the concept box of line 229, the guide of lines
    288-289, the PDF that [generate_pdf_report] wrote, the download
    button of lines 338-340, [st.image] and [st.text_area]. *)
Inductive page_event :=
| Core (e : event)
| PageError (n : notice)
| PageWarning (n : notice)
| PageSuccess (n : notice)
| PageBalloons
| ConceptBox (v : json)
| GuideBox (v : json)
| PdfReport (ops : list pdf_op)
| DownloadButton (disk_file file_name : list N)
| ShowImage
| TextArea (initial : list N).

Definition script (A : Type) : Type := (list page_event * ctl A)%type.

Definition seq {A B} (m : script A) (k : A -> script B) : script B :=
  match m with
  | (ev, Done a) => let '(ev', r) := k a in (ev ++ ev', r)
  | (ev, Stopped) => (ev, Stopped)
  | (ev, Failed e) => (ev, Failed e)
  end.

Definition say (l : list page_event) : script unit := (l, Done tt).

(** A piece of [App] inside a run. *)
Definition core {A} (m : io A) : script A :=
  (List.map Core (fst m),
   match snd m with
   | Ok a => Done a
   | Raise e => Failed e
   end).

Notation "'run!' x ':=' m 'in' k" := (seq m (fun x => k))
  (at level 10, x name, m at level 100, k at level 200).

(** The requests a run sent to the endpoint. *)
Definition requests (events : list page_event) : list request :=
  omap (fun e => match e with Core (Post req) => Some req | _ => None end)
       events.

(** *** The glossary helper of the sidebar, lines 224-231 *)

Definition glossary_prompt (term : list N) : list N :=
  u "Explain the term '" ++ term ++ u "' in simple words for a student.".

Definition glossary (net : request -> res response) (api_key term : list N)
    : script unit :=
  if truthy term then
    let '(ev, ai_response) := query_ai net api_key (glossary_prompt term) in
    run! _ := say (List.map Core ev) in
    if json_truthy ai_response then say [ConceptBox ai_response]
    else say [PageWarning NoDefinition]
  else say [].

(** *** The experiment assistant, lines 234-340 *)

Record template := { hypothesis : list N; concept : list N }.

(** The dict [experiments] of lines 155-168. *)
Definition experiments : gmap (list N) template :=
  <[u "Vinegar + Baking Soda" :=
      {| hypothesis := u "Mixing vinegar and baking soda will produce bubbles due to a chemical reaction.";
         concept := u "Acid-base reaction producing carbon dioxide." |}]>
  (<[u "Floating Egg" :=
      {| hypothesis := u "An egg will float in salt water but sink in plain water.";
         concept := u "Density difference between saltwater and freshwater." |}]>
  (<[u "Lemon Battery" :=
      {| hypothesis := u "A lemon can produce electricity to power a small LED.";
         concept := u "Chemical energy conversion to electrical energy." |}]> ∅)).

(** What the widgets of the form return in one run. A text area with an
    initial value is the function from that value to what it returns. *)
Record form := {
  name_input : list N;
  hypo_area : list N -> list N;
  materials : list N;
  procedure : list N;
  submit : bool
}.

(** The f-string of lines 265-279. *)
Definition experiment_prompt (exp_name hypo materials procedure : list N)
    : list N :=
  join_nl
    [[];
     u "            Create a comprehensive guide for a science experiment with the following details:";
     u "            ";
     u "            Experiment Name: " ++ exp_name;
     u "            Hypothesis: " ++ hypo;
     u "            Materials: "
       ++ (if truthy materials then materials else u "Not specified");
     u "            Procedure: "
       ++ (if truthy procedure then procedure else u "Not specified");
     u "            ";
     u "            Please provide:";
     u "            1. A clear explanation of the scientific concept behind the experiment";
     u "            2. Step-by-step instructions for conducting the experiment";
     u "            3. Safety precautions";
     u "            4. Expected results and why they're expected";
     u "            5. How to interpret the results";
     u "            "].

(** A text that the built-in font "Arial" of [FPDF] can write: code
    points up to U+00FF. *)
Definition latin1 (s : list N) : bool := forallb (fun c => c <? 0x100) s.

(** The text that [multi_cell] lays out: it calls [txt.replace], which a
    value that is no [str] does not have. *)
Definition multi_cell_text (txt : json) : res (list N) :=
  match txt with
  | JStr s => Ok s
  | _ => Raise AttributeError
  end.

(** [pdf.output(filename)] for a page holding [texts]: the page is
    encoded as latin-1 before the file is opened. *)
Definition pdf_output (texts : list (list N)) : res unit :=
  if forallb latin1 texts then Ok tt else Raise UnicodeEncodeError.

(** [generate_pdf_report], lines 292-334: the calls on the [FPDF] object
    and the name of the file written, or the exception of the call that
    failed: [multi_cell] on a guide that is no [str], or [output] on a
    page with a character outside latin-1 (the exceptions are those of
    PyFPDF 1.7). [stamp] is the value of
    [datetime.now().strftime('%Y%m%d%H%M%S')]. *)
Definition generate_pdf_report (stamp exp_name hypo : list N)
    (explanation : json) (materials procedure : list N)
    : res (list pdf_op * list N) :=
  let filename := u "experiment_guide_" ++ stamp ++ u ".pdf" in
  let! guide := multi_cell_text explanation in
  let! _ := pdf_output [exp_name; hypo; materials; procedure; guide] in
  Ok
  ([AddPage;
    SetFont (u "Arial") [] 12;
    SetFont (u "Arial") (u "B") 16;
    Cell 200 10 (u "Science Experiment Guide") true (u "C");
    Ln 15;
    SetFont (u "Arial") (u "B") 14;
    Cell 0 10 (u "Experiment: " ++ exp_name) true [];
    Ln 5;
    SetFont (u "Arial") (u "B") 12;
    Cell 0 10 (u "Hypothesis:") true [];
    SetFont (u "Arial") [] 12;
    MultiCell 0 8 (JStr hypo);
    Ln 5]
   ++ (if truthy materials then
         [SetFont (u "Arial") (u "B") 12;
          Cell 0 10 (u "Materials:") true [];
          SetFont (u "Arial") [] 12;
          MultiCell 0 8 (JStr materials);
          Ln 5]
       else [])
   ++ (if truthy procedure then
         [SetFont (u "Arial") (u "B") 12;
          Cell 0 10 (u "Procedure:") true [];
          SetFont (u "Arial") [] 12;
          MultiCell 0 8 (JStr procedure);
          Ln 10]
       else [])
   ++ [SetFont (u "Arial") (u "B") 12;
       Cell 0 10 (u "Experiment Guide:") true [];
       SetFont (u "Arial") [] 12;
       MultiCell 0 8 explanation;
       Output filename],
   filename)%Z.

(** Lines 239-246: the name and the initial hypothesis, from the
    template when one is selected, from the name field otherwise. *)
Definition prefill (selected_exp : list N) (f : form) : list N * list N :=
  if negb (bool_decide (selected_exp = u "Custom Experiment")) then
    match experiments !! selected_exp with
    | Some t => (selected_exp, hypothesis t)
    | None => (name_input f, [])
    end
  else (name_input f, []).

(** Lines 234-340. Calls that only lay out the page, and the example
    cards below the form, are left out. *)
Definition experiment_assistant (net : request -> res response)
    (api_key stamp selected_exp : list N) (f : form) : script unit :=
  let '(exp_name, default_hypo) := prefill selected_exp f in
  let hypo := hypo_area f default_hypo in
  if submit f then
    if negb (truthy exp_name) || negb (truthy hypo) then
      ([PageWarning NeedNameAndHypothesis], Stopped)
    else
      let prompt := experiment_prompt exp_name hypo (materials f) (procedure f) in
      let '(ev, explanation) := query_ai net api_key prompt in
      run! _ := say (List.map Core ev) in
      if json_truthy explanation then
        run! _ :=
          say [ PageSuccess GuideGenerated; PageBalloons;
                Core (StMarkdown (u "### " ++ [0x1F9EA] ++ u " Experiment Guide"));
                GuideBox explanation ] in
        match generate_pdf_report stamp exp_name hypo explanation
                                  (materials f) (procedure f) with
        | Ok (ops, pdf_file) =>
            say [ PdfReport ops;
                  DownloadButton pdf_file (exp_name ++ u "_guide.pdf") ]
        | Raise e => ([], Failed e)
        end
      else say []
  else say [].

(** *** The lab report analyzer, lines 386-616 *)

(** What [pytesseract.image_to_string] does on an opened image. *)
Inductive ocr :=
| Recognized (text : list N)
| TesseractNotFound
| OcrRaises (e : exn).

(** An uploaded file: the value of [file_ext] at line 398, what
    [pdfplumber] makes of the bytes, and what [Image.open] and the OCR
    make of them. *)
Record upload := {
  file_ext : list N;
  as_pdf : pdf;
  as_image : res ocr
}.

(** The image branch, lines 408-436: the events and [lab_text]. Both
    handlers of the inner [try] end in [st.stop()], which ends the run:
    its exception is no [Exception], so the outer handler lets it pass. *)
Definition extract_image (img : res ocr) : script (list N) :=
  match img with
  | Raise e => ([PageError (ImageFailed e)], Done [])
  | Ok (Recognized text) =>
      ([ShowImage; PageSuccess ImageExtracted], Done text)
  | Ok TesseractNotFound => ([ShowImage; PageError TesseractMissing], Stopped)
  | Ok (OcrRaises e) => ([ShowImage; PageError (OcrFailed e)], Stopped)
  end.

(** Lines 395-442: [lab_text] after the upload and the text area.
    [edited] is the text area as a function of its initial value. *)
Definition read_upload (uploaded_file : option upload)
    (edited : list N -> list N) : script (list N) :=
  match uploaded_file with
  | None => ([], Done [])
  | Some file =>
      run! lab_text :=
        (if bool_decide (file_ext file = u "pdf") then
           let '(ev, lab_text) := extract_pdf (as_pdf file) in
           (List.map Core ev, Done lab_text)
         else extract_image (as_image file)) in
      if truthy lab_text then ([TextArea lab_text], Done (edited lab_text))
      else ([], Done lab_text)
  end.

Definition lab_report_analyzer (net : request -> res response)
    (api_key : list N) (uploaded_file : option upload)
    (edited : list N -> list N) (ui : clicks) : script unit :=
  run! lab_text := read_upload uploaded_file edited in
  core (ai_evaluation net api_key ui lab_text).

(** *** The whole script *)

(** The environment and the widgets of one run. *)
Record inputs := {
  OPENROUTER_API_KEY : option (list N);
  app_mode : list N;
  selected_exp : list N;
  term : list N;
  stamp : list N;
  experiment_form : form;
  uploaded_file : option upload;
  edited : list N -> list N;
  analyzer_clicks : clicks
}.

(** Lines 14-26, the sidebar of lines 215-231 and the dispatch on
    [app_mode] of lines 234 and 387. *)
Definition main (net : request -> res response) (i : inputs) : script unit :=
  match OPENROUTER_API_KEY i with
  | Some (c :: key) =>
      let API_KEY := c :: key in
      run! _ := glossary net API_KEY (term i) in
      if bool_decide (app_mode i = [0x1F9EA] ++ u " Experiment Assistant") then
        experiment_assistant net API_KEY (stamp i) (selected_exp i)
                             (experiment_form i)
      else
        lab_report_analyzer net API_KEY (uploaded_file i) (edited i)
                            (analyzer_clicks i)
  | _ => ([PageError ApiKeyNotConfigured], Stopped)
  end.

(** The requests [reqs] are at most [n] and all built by [chat_request]
    with the key [api_key]: same endpoint, same model, same header. *)
Definition from_client (api_key : list N) (reqs : list request) (n : nat)
    : Prop :=
  Forall (fun req => exists prompt, req = chat_request api_key prompt) reqs
  /\ (length reqs <= n)%nat.

(** The path [['choices'][0]['message']['content']] in a decoded body. *)
Definition content_of (body : json) : res json :=
  let! choices := getitem_str body (u "choices") in
  let! first := getitem_0 choices in
  let! msg := getitem_str first (u "message") in
  getitem_str msg (u "content").

End Pages.

(** ** Facts about the Python values *)

Module PyFacts.

Lemma isspace_points c : isspace c = true -> In c whitespace_points.
Proof.
  unfold isspace. rewrite existsb_exists.
  intros (x & Hin & Heq). apply N.eqb_eq in Heq. now subst.
Qed.

Lemma space_not_decimal c : isspace c = true -> isdecimal c = false.
Proof.
  intros H. apply isspace_points in H.
  unfold whitespace_points in H. simpl in H.
  repeat (destruct H as [<- | H]; [vm_compute; reflexivity |]).
  destruct H.
Qed.

Lemma decimal_not_space c : isdecimal c = true -> isspace c = false.
Proof.
  intros H. destruct (isspace c) eqn:E; [| reflexivity].
  apply space_not_decimal in E. congruence.
Qed.

Lemma decimal_not_int_space c : isdecimal c = true -> int_space c = false.
Proof.
  intros H. unfold int_space. now rewrite decimal_not_space.
Qed.

Lemma digit_value_range c : (0 <= digit_value c < 10)%Z.
Proof.
  unfold digit_value, decimal.
  destruct (List.find (in_run c) decimal_runs) as [r |]; [| lia].
  assert (H : (c - fst r) mod 10 < 10) by (apply N.mod_lt; discriminate).
  revert H. generalize ((c - fst r) mod 10). intros m Hm. lia.
Qed.

Lemma value_of_digits_from acc g :
  (0 <= acc)%Z ->
  (0 <= fold_left (fun a c => (10 * a + digit_value c)%Z) g acc)%Z.
Proof.
  revert acc. induction g as [| c g IH]; intros acc Hacc; simpl; [exact Hacc |].
  apply IH. pose proof (digit_value_range c). lia.
Qed.

Lemma value_of_digits_nonneg g : (0 <= value_of_digits g)%Z.
Proof. apply value_of_digits_from. lia. Qed.

Lemma int_digits_all acc b g :
  Forall (fun c => isdecimal c = true) g ->
  (g <> [] \/ b = true) ->
  int_digits acc b g
  = Some (fold_left (fun a c => (10 * a + digit_value c)%Z) g acc).
Proof.
  intros Hall. revert acc b.
  induction Hall as [| c g Hc Hall IH]; intros acc b Hne; simpl.
  - destruct Hne as [Hne | ->]; [now destruct Hne | reflexivity].
  - unfold isdecimal in Hc. unfold digit_value at 2.
    destruct (decimal c) as [d |]; [| discriminate].
    apply IH. now right.
Qed.

Lemma int_lskip_digit c t :
  isdecimal c = true -> int_lskip (c :: t) = c :: t.
Proof. intros H. simpl. now rewrite decimal_not_int_space. Qed.

Lemma filter_all_decimal g :
  Forall (fun c => isdecimal c = true) g -> List.filter isdecimal g = g.
Proof.
  induction 1 as [| c g Hc _ IH]; simpl; [reflexivity |]. now rewrite Hc, IH.
Qed.

(** [int] on a non-empty run of decimal digits: the number it denotes
    when the run has at most 4300 digits, [ValueError] when it is
    longer. *)
Lemma int_of_digits g :
  g <> [] -> Forall (fun c => isdecimal c = true) g ->
  int g = if (int_max_str_digits <? length g)%nat then Raise ValueError
          else Ok (value_of_digits g).
Proof.
  intros Hne Hall. unfold int.
  assert (Hl : int_lskip g = g).
  { destruct g as [| c t]; [reflexivity |].
    apply int_lskip_digit. now inversion Hall. }
  rewrite Hl.
  assert (Hr : int_lskip (rev g) = rev g).
  { destruct (rev g) as [| c t] eqn:E; [reflexivity |].
    apply int_lskip_digit.
    assert (Hin : In c (rev g)) by (rewrite E; now left).
    apply in_rev in Hin. rewrite List.Forall_forall in Hall. now apply Hall. }
  rewrite Hr, rev_involutive.
  destruct g as [| c t]; [now destruct Hne |].
  assert (Hc : isdecimal c = true) by now inversion Hall.
  destruct (N.eqb_spec c 0x2d) as [-> | _]; [discriminate Hc |].
  destruct (N.eqb_spec c 0x2b) as [-> | _]; [discriminate Hc |].
  cbv beta iota zeta.
  rewrite (filter_all_decimal (c :: t) Hall).
  rewrite int_digits_all by (auto; now left).
  reflexivity.
Qed.

Lemma lstrip_spaces s :
  Forall (fun c => isspace c = true) s -> lstrip s = [].
Proof.
  induction 1 as [| c s Hc _ IH]; simpl; [reflexivity |]. now rewrite Hc.
Qed.

Lemma strip_spaces s :
  Forall (fun c => isspace c = true) s -> strip s = [].
Proof. intros H. unfold strip, rstrip. now rewrite (lstrip_spaces s H). Qed.

Lemma split_nl_nonempty s : split_nl s <> [].
Proof.
  destruct s as [| c t]; simpl; [discriminate |].
  destruct (c =? NL); [discriminate |].
  destruct (split_nl t); discriminate.
Qed.

Lemma split_nl_line l : one_line l -> split_nl l = [l].
Proof.
  unfold one_line. induction l as [| c l IH]; intros H; simpl; [reflexivity |].
  destruct (N.eqb_spec c NL) as [-> | _]; [destruct H; now left |].
  rewrite IH; [reflexivity |]. intros Hin. apply H. now right.
Qed.

Lemma split_nl_app l s :
  one_line l -> split_nl (l ++ NL :: s) = l :: split_nl s.
Proof.
  unfold one_line. induction l as [| c l IH]; intros H; simpl.
  - reflexivity.
  - destruct (N.eqb_spec c NL) as [-> | _]; [destruct H; now left |].
    rewrite IH; [reflexivity |]. intros Hin. apply H. now right.
Qed.

(** Splitting what [join] built gives the lines back. *)
Lemma split_join lines :
  lines <> [] -> Forall one_line lines -> split_nl (join_nl lines) = lines.
Proof.
  intros Hne Hall. induction Hall as [| l rest Hl Hall IH]; [now destruct Hne |].
  destruct rest as [| l' rest'].
  - simpl. now apply split_nl_line.
  - change (join_nl (l :: l' :: rest')) with (l ++ NL :: join_nl (l' :: rest')).
    rewrite split_nl_app by assumption. f_equal. apply IH. discriminate.
Qed.

End PyFacts.

(** ** Facts about the matcher *)

Module ReFacts.

Import Re.

Lemma run_one a g p c t cap :
  run ({| what := One a; captured := g |} :: p) (c :: t) cap
  = if accepts a c then run p t (keep g cap c) else None.
Proof. reflexivity. Qed.

Lemma run_star a g p s cap :
  run ({| what := Star a; captured := g |} :: p) s cap
  = greedy a g (run p) s cap.
Proof. reflexivity. Qed.

Lemma run_plus a g p c t cap :
  run ({| what := Plus a; captured := g |} :: p) (c :: t) cap
  = if accepts a c then greedy a g (run p) t (keep g cap c) else None.
Proof. reflexivity. Qed.

Lemma keep_taken g cap c w :
  keep g cap c ++ taken g w = cap ++ taken g (c :: w).
Proof. destruct g; simpl; [now rewrite <- app_assoc | reflexivity]. Qed.

Lemma taken_nil g cap : cap ++ taken g [] = cap.
Proof. destruct g; apply app_nil_r. Qed.

(** A literal in front of a pattern: its characters match one by one. *)
Lemma run_chrs l p s cap g :
  run (chrs l ++ p) s cap = Some g <->
  exists l' s', s = l' ++ s' /\ same_text l l' /\ run p s' cap = Some g.
Proof.
  revert s. induction l as [| a l IH]; intros s.
  - simpl. split.
    + intros H. exists [], s. repeat split; [constructor | exact H].
    + intros (l' & s' & -> & Hs & H). inversion Hs; subst. exact H.
  - change (chrs (a :: l) ++ p)
      with ({| what := One (Chr a); captured := false |} :: (chrs l ++ p)).
    destruct s as [| c t]; simpl.
    + split; [discriminate |].
      intros (l' & s' & Heq & Hs & _). inversion Hs; subst. discriminate.
    + destruct (ieq a c) eqn:E.
      * rewrite IH. split.
        -- intros (l' & s' & -> & Hs & H). exists (c :: l'), s'.
           repeat split; [now constructor | exact H].
        -- intros (l' & s' & Heq & Hs & H). inversion Hs; subst.
           injection Heq as <- ->. eauto.
      * split; [discriminate |].
        intros (l' & s' & Heq & Hs & _). inversion Hs; subst.
        injection Heq as <- _. congruence.
Qed.

(** Whatever a greedy repetition returns comes from one way of cutting
    the subject. *)
Lemma greedy_sound a g k s cap r :
  greedy a g k s cap = Some r ->
  exists w s', s = w ++ s'
    /\ Forall (fun c => accepts a c = true) w
    /\ k s' (cap ++ taken g w) = Some r.
Proof.
  revert cap. induction s as [| c t IH]; intros cap H; simpl in H.
  - exists [], []. rewrite taken_nil. repeat split; [constructor | exact H].
  - destruct (accepts a c) eqn:E.
    + destruct (greedy a g k t (keep g cap c)) as [r' |] eqn:G.
      * injection H as <-. destruct (IH _ G) as (w & s' & -> & Hw & Hk).
        exists (c :: w), s'. rewrite <- keep_taken.
        repeat split; [now constructor | exact Hk].
      * exists [], (c :: t). rewrite taken_nil.
        repeat split; [constructor | exact H].
    + exists [], (c :: t). rewrite taken_nil.
      repeat split; [constructor | exact H].
Qed.

(** When what follows cannot start with a character of the class, the
    cut is the longest run and backtracking never changes it. *)
Lemma greedy_complete a g k :
  (forall c t cap, accepts a c = true -> k (c :: t) cap = None) ->
  forall w s' cap r,
    Forall (fun c => accepts a c = true) w ->
    k s' (cap ++ taken g w) = Some r ->
    greedy a g k (w ++ s') cap = Some r.
Proof.
  intros Hk w s' cap r Hw. revert cap.
  induction Hw as [| c w Hc Hw IH]; intros cap H.
  - rewrite taken_nil in H. simpl. destruct s' as [| c t]; simpl; [exact H |].
    destruct (accepts a c) eqn:E; [| exact H].
    rewrite (Hk c t cap E) in H. discriminate.
  - simpl. rewrite Hc. rewrite <- keep_taken in H. now rewrite (IH _ H).
Qed.

Lemma ieq_nonletter p c :
  p < 0x41 -> ieq p c = true -> c = p.
Proof.
  intros Hp. unfold ieq, ascii_lower.
  destruct (N.leb_spec 0x41 p); [lia |]. simpl.
  destruct (N.eqb_spec p 0x73); [lia |].
  destruct (N.eqb_spec p 0x6b); [lia |].
  destruct (N.eqb_spec p 0x69); [lia |]. simpl.
  rewrite !orb_false_r.
  destruct (N.leb_spec 0x41 c), (N.leb_spec c 0x5a); simpl;
    intros Heq; apply N.eqb_eq in Heq; lia.
Qed.

Lemma same_text_slash_10 l : same_text (u "/10") l <-> l = u "/10".
Proof.
  split.
  - intros H. change (u "/10") with [0x2f; 0x31; 0x30] in *.
    inversion H as [| a c l1 l1' H1 H']; subst.
    inversion H' as [| a c2 l2 l2' H2 H'']; subst.
    inversion H'' as [| a c3 l3 l3' H3 H''']; subst.
    inversion H'''; subst.
    apply ieq_nonletter in H1, H2, H3; try lia. now subst.
  - intros ->. repeat constructor.
Qed.

Lemma digit_blocks_slash c t cap :
  isdecimal c = true -> run (chrs (u "/10")) (c :: t) cap = None.
Proof.
  intros H. change (chrs (u "/10"))
    with ({| what := One (Chr 0x2f); captured := false |} :: chrs [0x31; 0x30]).
  rewrite run_one. cbn [accepts].
  destruct (ieq 0x2f c) eqn:E; [| reflexivity].
  apply ieq_nonletter in E; [| lia]. subst c. discriminate H.
Qed.

Lemma space_blocks_digits c t cap :
  isspace c = true -> run digits_then_slash (c :: t) cap = None.
Proof.
  intros H. unfold digits_then_slash. rewrite run_plus. cbn [accepts].
  now rewrite (PyFacts.space_not_decimal c H).
Qed.

Lemma score_pattern_shape :
  score_pattern
  = chrs (u "Completeness Score:")
    ++ {| what := Star Space; captured := false |} :: digits_then_slash.
Proof. reflexivity. Qed.

Lemma run_chrs_end l s cap g :
  run (chrs l) s cap = Some g <->
  exists l' s', s = l' ++ s' /\ same_text l l' /\ g = cap.
Proof.
  rewrite <- (app_nil_r (chrs l)), run_chrs. simpl.
  split; intros (l' & s' & H1 & H2 & H3); exists l', s';
    repeat split; try assumption; congruence.
Qed.

(** The backtracking matcher finds the group [g] at the start of [s]
    exactly when [s] reads: the words, white space, [g], "/10". *)
Lemma run_score_pattern s g :
  run score_pattern s [] = Some g <-> score_match_at s g.
Proof.
  rewrite score_pattern_shape, run_chrs. unfold score_match_at. split.
  - intros (l & s1 & -> & Hl & H). rewrite run_star in H.
    apply greedy_sound in H. destruct H as (ws & s2 & -> & Hws & H).
    unfold digits_then_slash in H.
    destruct s2 as [| c t]; [discriminate |].
    rewrite run_plus in H. cbn [accepts taken keep app] in H.
    destruct (isdecimal c) eqn:Hc; [| discriminate].
    apply greedy_sound in H. destruct H as (w & s3 & -> & Hw & H).
    apply run_chrs_end in H. destruct H as (l3 & rest & -> & H3 & ->).
    apply same_text_slash_10 in H3. subst l3.
    exists l, ws, rest. cbn [taken app].
    repeat split; try assumption; [now constructor | discriminate].
  - intros (l & ws & rest & -> & Hl & Hws & Hg & Hne).
    exists l, (ws ++ g ++ u "/10" ++ rest). repeat split; [assumption |].
    rewrite run_star.
    apply greedy_complete; [apply space_blocks_digits | assumption |].
    destruct g as [| c w]; [now destruct Hne |].
    inversion Hg as [| ? ? Hc Hw]; subst.
    unfold digits_then_slash. cbn [app]. rewrite run_plus. cbn [accepts].
    rewrite Hc.
    apply greedy_complete; [apply digit_blocks_slash | assumption |].
    apply run_chrs_end. exists (u "/10"), rest.
    repeat split. now apply same_text_slash_10.
Qed.

(** Group 1 of a match is a non-empty run of digits. *)
Lemma score_group_digits s g :
  score_match_at s g -> g <> [] /\ Forall (fun c => isdecimal c = true) g.
Proof. intros (l & ws & rest & _ & _ & _ & Hg & Hne). now split. Qed.

Lemma search_none p s :
  search p s = None <-> forall pre s', s = pre ++ s' -> run p s' [] = None.
Proof.
  induction s as [| c t IH]; simpl.
  - destruct (run p [] []) eqn:E.
    + split; [discriminate |]. intros H. rewrite <- E. now apply (H []).
    + split; [| reflexivity]. intros _ pre s' H.
      symmetry in H. apply app_eq_nil in H. destruct H as [_ ->]. exact E.
  - destruct (run p (c :: t) []) eqn:E.
    + split; [discriminate |]. intros H. rewrite <- E. now apply (H []).
    + rewrite IH. split.
      * intros H pre s' Heq. destruct pre as [| c' pre].
        -- simpl in Heq. now subst.
        -- injection Heq as <- ->. now apply (H pre).
      * intros H pre s' ->. now apply (H (c :: pre)).
Qed.

Lemma search_some p s g :
  search p s = Some g <->
  exists pre s', s = pre ++ s'
    /\ run p s' [] = Some g
    /\ forall pre1 s1, s = pre1 ++ s1 ->
         (length pre1 < length pre)%nat -> run p s1 [] = None.
Proof.
  induction s as [| c t IH]; simpl.
  - destruct (run p [] []) eqn:E.
    + split.
      * intros H. exists [], []. repeat split; [congruence |].
        simpl. intros; lia.
      * intros (pre & s' & H & Hr & _).
        symmetry in H. apply app_eq_nil in H. destruct H as [_ ->]. congruence.
    + split; [discriminate |].
      intros (pre & s' & H & Hr & _).
      symmetry in H. apply app_eq_nil in H. destruct H as [_ ->]. congruence.
  - destruct (run p (c :: t) []) eqn:E.
    + split.
      * intros H. exists [], (c :: t). repeat split; [congruence |].
        simpl. intros; lia.
      * intros (pre & s' & H & Hr & Hmin). destruct pre as [| c' pre].
        -- simpl in H. subst s'. congruence.
        -- specialize (Hmin [] (c :: t) eq_refl). simpl in Hmin.
           rewrite Hmin in E by lia. discriminate.
    + rewrite IH. split.
      * intros (pre & s' & -> & Hr & Hmin). exists (c :: pre), s'.
        repeat split; [assumption |]. intros pre1 s1 Heq Hlen.
        destruct pre1 as [| c1 pre1].
        -- simpl in Heq. now subst.
        -- injection Heq as <- Heq. apply (Hmin pre1 s1 Heq). simpl in Hlen. lia.
      * intros (pre & s' & Heq & Hr & Hmin). destruct pre as [| c' pre].
        -- simpl in Heq. subst s'. congruence.
        -- injection Heq as <- ->. exists pre, s'. repeat split; [assumption |].
           intros pre1 s1 Heq Hlen. apply (Hmin (c :: pre1) s1).
           ++ simpl. now rewrite Heq.
           ++ simpl. lia.
Qed.

(** A literal cannot run across a newline that none of its characters
    matches. *)
Lemma chrs_before_newline lt q b R cap g :
  Forall (fun p => ieq p NL = false) lt ->
  run (chrs lt ++ q) (b ++ NL :: R) cap = Some g ->
  run (chrs lt) b [] = Some [].
Proof.
  intros Hlt. revert b. induction Hlt as [| a lt Ha Hlt IH]; intros b H.
  - reflexivity.
  - change (chrs (a :: lt) ++ q)
      with ({| what := One (Chr a); captured := false |} :: (chrs lt ++ q)) in H.
    change (chrs (a :: lt))
      with ({| what := One (Chr a); captured := false |} :: chrs lt).
    destruct b as [| c b]; simpl in *.
    + rewrite Ha in H. discriminate.
    + destruct (ieq a c); [now apply IH | discriminate].
Qed.

Lemma words_no_newline :
  Forall (fun p => ieq p NL = false) (u "Completeness Score:").
Proof. repeat constructor. Qed.

(** No match starts in a line that does not mention the words. *)
Lemma quiet_line l a b R :
  mentions_score l = false -> l = a ++ b ->
  run score_pattern (b ++ NL :: R) [] = None.
Proof.
  unfold mentions_score. intros Hm ->.
  destruct (search (lit "Completeness Score:") (a ++ b)) eqn:E; [discriminate |].
  pose proof (proj1 (search_none _ _) E a b eq_refl) as Hb.
  destruct (run score_pattern (b ++ NL :: R) []) eqn:Hr; [| reflexivity].
  rewrite score_pattern_shape in Hr.
  apply chrs_before_newline in Hr; [| apply words_no_newline].
  change (lit "Completeness Score:") with (chrs (u "Completeness Score:")) in Hb.
  congruence.
Qed.

Lemma search_past_line l R :
  mentions_score l = false ->
  search score_pattern (l ++ NL :: R) = search score_pattern R.
Proof.
  intros Hm.
  assert (H : forall a b, l = a ++ b ->
            run score_pattern (b ++ NL :: R) [] = None)
    by (intros a b; now apply quiet_line).
  clear Hm. induction l as [| c l IH].
  - simpl app. change (search score_pattern (NL :: R))
      with (match run score_pattern ([] ++ NL :: R) [] with
            | Some g => Some g
            | None => search score_pattern R
            end).
    now rewrite (H [] []).
  - change (search score_pattern ((c :: l) ++ NL :: R))
      with (match run score_pattern ((c :: l) ++ NL :: R) [] with
            | Some g => Some g
            | None => search score_pattern (l ++ NL :: R)
            end).
    rewrite (H [] (c :: l) eq_refl). apply IH.
    intros a b ->. now apply (H (c :: a) b).
Qed.

Lemma search_past_lines quiet rest :
  rest <> [] ->
  Forall (fun l => mentions_score l = false) quiet ->
  search score_pattern (join_nl (quiet ++ rest))
  = search score_pattern (join_nl rest).
Proof.
  intros Hne. induction 1 as [| l quiet Hl _ IH]; [reflexivity |].
  simpl app. destruct (quiet ++ rest) as [| l' more] eqn:E.
  - apply app_eq_nil in E. destruct E as [_ ->]. now destruct Hne.
  - change (join_nl (l :: l' :: more)) with (l ++ NL :: join_nl (l' :: more)).
    now rewrite search_past_line.
Qed.

End ReFacts.

(** ** Facts about the section scan *)

Module ScanFacts.

Lemma key_truthy n : is_key n -> truthy n = true.
Proof. intros [-> | [-> | ->]]; reflexivity. Qed.

Lemma heading_is_key line n : heading line = Some n -> is_key n.
Proof.
  unfold heading, is_key.
  repeat (match goal with |- context [if ?b then _ else _] => destruct b end);
    intros H; inversion H; auto.
Qed.

Lemma scan_line_heading st line n :
  heading line = Some n -> scan_line st line = Ok (open_section n st).
Proof.
  unfold heading, scan_line.
  repeat (match goal with |- context [if ?b then _ else _] => destruct b end);
    intros H; inversion H; reflexivity.
Qed.

Lemma scan_line_plain st line :
  heading line = None ->
  scan_line st line
  = match current_section st with
    | Some name =>
        if truthy name && nonblank line then append_line name line st
        else Ok st
    | None => Ok st
    end.
Proof.
  unfold heading, scan_line.
  repeat (match goal with |- context [if ?b then _ else _] => destruct b end);
    intros H; inversion H; reflexivity.
Qed.

Lemma step_heading st line n :
  heading line = Some n -> step st line = open_section n st.
Proof. intros H. unfold step. now rewrite (scan_line_heading _ _ _ H). Qed.

Lemma step_append st line n l :
  heading line = None -> current_section st = Some n -> is_key n ->
  nonblank line = true -> sections st !! n = Some (Some l) ->
  scan_line st line
  = Ok {| current_section := Some n;
          sections := <[n := Some (l ++ [line])]> (sections st) |}.
Proof.
  intros Hh Hc Hk Hb Hl. rewrite (scan_line_plain _ _ Hh), Hc.
  rewrite (key_truthy _ Hk), Hb. unfold append_line. now rewrite Hl, Hc.
Qed.

Lemma step_blank st line :
  heading line = None -> nonblank line = false -> scan_line st line = Ok st.
Proof.
  intros Hh Hb. rewrite (scan_line_plain _ _ Hh), Hb.
  destruct (current_section st); [| reflexivity]. now rewrite andb_false_r.
Qed.

Lemma step_no_cursor st line :
  heading line = None -> current_section st = None -> scan_line st line = Ok st.
Proof. intros Hh Hc. now rewrite (scan_line_plain _ _ Hh), Hc. Qed.

Lemma wf_start : wf scan_start.
Proof.
  unfold wf, scan_start. simpl. split; [| split].
  - intros n H. discriminate H.
  - intros n [-> | [-> | ->]]; vm_compute; eauto.
  - intros n l. rewrite !lookup_insert.
    repeat case_decide; try discriminate;
      try (rewrite lookup_empty; discriminate).
Qed.

Lemma wf_open n st : is_key n -> wf st -> wf (open_section n st).
Proof.
  intros Hk (Hc & Hd & Hb). unfold wf, open_section. simpl. split; [| split].
  - intros m H. injection H as <-. split; [assumption |].
    exists []. apply lookup_insert_eq.
  - intros m Hm. rewrite lookup_insert. case_decide; [eauto | now apply Hd].
  - intros m l. rewrite lookup_insert. case_decide.
    + intros Hx. injection Hx as <-. constructor.
    + apply Hb.
Qed.

Lemma wf_append n line l st :
  current_section st = Some n -> nonblank line = true ->
  sections st !! n = Some (Some l) -> wf st ->
  wf {| current_section := Some n;
        sections := <[n := Some (l ++ [line])]> (sections st) |}.
Proof.
  intros Hcur Hline Hl (Hc & Hd & Hb). unfold wf. simpl. split; [| split].
  - intros m H. injection H as <-. split; [now apply (Hc n) |].
    eexists. apply lookup_insert_eq.
  - intros m Hm. rewrite lookup_insert. case_decide; [eauto | now apply Hd].
  - intros m l'. rewrite lookup_insert. case_decide.
    + intros Hx. injection Hx as <-. apply Forall_app. split.
      * now apply (Hb n).
      * now repeat constructor.
    + apply Hb.
Qed.

(** One turn of the loop never raises and keeps the invariant. *)
Lemma scan_line_ok st line :
  wf st -> scan_line st line = Ok (step st line) /\ wf (step st line).
Proof.
  intros Hwf. unfold step.
  destruct (heading line) as [n |] eqn:Hh.
  - rewrite (scan_line_heading _ _ _ Hh). split; [reflexivity |].
    apply wf_open; [now apply heading_is_key with line | assumption].
  - destruct (nonblank line) eqn:Hb.
    + destruct (current_section st) as [n |] eqn:Hc.
      * pose proof Hwf as (H1 & _ & _).
        destruct (H1 n Hc) as (Hk & l & Hl).
        rewrite (step_append _ _ _ _ Hh Hc Hk Hb Hl). split; [reflexivity |].
        now apply wf_append.
      * rewrite (step_no_cursor _ _ Hh Hc). now split.
    + rewrite (step_blank _ _ Hh Hb). now split.
Qed.

Lemma wf_steps lines st : wf st -> wf (fold_left step lines st).
Proof.
  revert st. induction lines as [| line rest IH]; intros st H; simpl; [exact H |].
  apply IH. now apply scan_line_ok.
Qed.

(** The scan never raises from a state that satisfies the invariant. *)
Lemma scan_ok lines st :
  wf st -> scan lines st = Ok (fold_left step lines st).
Proof.
  revert st. induction lines as [| line rest IH]; intros st H; simpl.
  - reflexivity.
  - destruct (scan_line_ok st line H) as [-> Hwf]. simpl. now apply IH.
Qed.

(** Lines that open no section leave a scan without cursor as it is. *)
Lemma steps_plain pre st :
  current_section st = None -> Forall plain pre -> fold_left step pre st = st.
Proof.
  intros Hc. induction 1 as [| line pre Hl _ IH]; simpl; [reflexivity |].
  unfold step at 2. now rewrite (step_no_cursor _ _ Hl Hc).
Qed.

(** A section that is not under the cursor keeps its entry as long as
    its heading does not come back. *)
Lemma steps_frame name lines st :
  wf st -> current_section st <> Some name ->
  Forall (fun l => heading l <> Some name) lines ->
  sections (fold_left step lines st) !! name = sections st !! name.
Proof.
  intros Hwf Hc Hl. revert st Hwf Hc.
  induction Hl as [| line rest Hline _ IH]; intros st Hwf Hc; simpl.
  - reflexivity.
  - destruct (scan_line_ok st line Hwf) as [Hs Hwf']. rewrite IH; trivial.
    + destruct (heading line) as [n |] eqn:Hh.
      * rewrite (step_heading _ _ _ Hh). simpl.
        apply lookup_insert_ne. congruence.
      * unfold step. destruct (nonblank line) eqn:Hb.
        -- destruct (current_section st) as [n |] eqn:Hcur.
           ++ destruct Hwf as (H1 & _). destruct (H1 n Hcur) as (Hk & l & Hn).
              rewrite (step_append _ _ _ _ Hh Hcur Hk Hb Hn). simpl.
              apply lookup_insert_ne. congruence.
           ++ now rewrite (step_no_cursor _ _ Hh Hcur).
        -- now rewrite (step_blank _ _ Hh Hb).
    + destruct (heading line) as [n |] eqn:Hh.
      * rewrite (step_heading _ _ _ Hh). simpl. congruence.
      * unfold step. destruct (nonblank line) eqn:Hb.
        -- destruct (current_section st) as [n |] eqn:Hcur.
           ++ destruct Hwf as (H1 & _). destruct (H1 n Hcur) as (Hk & l & Hn).
              rewrite (step_append _ _ _ _ Hh Hcur Hk Hb Hn). simpl. congruence.
           ++ rewrite (step_no_cursor _ _ Hh Hcur). congruence.
        -- now rewrite (step_blank _ _ Hh Hb).
Qed.

(** The section under the cursor collects the non-blank lines up to the
    next heading, and nothing after it. *)
Lemma steps_body name lines st acc :
  wf st -> current_section st = Some name ->
  sections st !! name = Some (Some acc) ->
  Forall (fun l => heading l <> Some name) lines ->
  sections (fold_left step lines st) !! name = Some (Some (acc ++ body lines)).
Proof.
  intros Hwf Hc Hn Hl. revert st acc Hwf Hc Hn.
  induction Hl as [| line rest Hline Hrest IH]; intros st acc Hwf Hc Hn.
  - simpl. unfold body. simpl. now rewrite app_nil_r.
  - simpl fold_left. destruct (scan_line_ok st line Hwf) as [_ Hwf'].
    unfold body. simpl until_heading.
    destruct (heading line) as [n |] eqn:Hh.
    + simpl List.filter. rewrite app_nil_r.
      rewrite steps_frame; trivial.
      * rewrite (step_heading _ _ _ Hh). simpl.
        rewrite lookup_insert_ne; [assumption | congruence].
      * rewrite (step_heading _ _ _ Hh). simpl. congruence.
    + assert (Hk : is_key name) by (destruct Hwf as (H1 & _); now apply H1).
      simpl List.filter. destruct (nonblank line) eqn:Hb.
      * revert Hwf'. unfold step.
        rewrite (step_append _ _ _ _ Hh Hc Hk Hb Hn). intros Hwf'.
        rewrite (IH _ (acc ++ [line])); trivial.
        -- unfold body. now rewrite <- app_assoc.
        -- simpl. apply lookup_insert_eq.
      * revert Hwf'. unfold step. rewrite (step_blank _ _ Hh Hb). intros _.
        now apply IH.
Qed.

(** Two scans that agree on the cursor and on one section go on agreeing
    on them, whatever the other sections hold. *)
Lemma steps_agree name lines st1 st2 :
  wf st1 -> wf st2 ->
  current_section st1 = current_section st2 ->
  sections st1 !! name = sections st2 !! name ->
  sections (fold_left step lines st1) !! name
  = sections (fold_left step lines st2) !! name.
Proof.
  revert st1 st2. induction lines as [| line rest IH];
    intros st1 st2 Hw1 Hw2 Hc Hn; simpl; [assumption |].
  destruct (scan_line_ok st1 line Hw1) as [_ Hw1'].
  destruct (scan_line_ok st2 line Hw2) as [_ Hw2'].
  apply IH; trivial.
  - destruct (heading line) as [n |] eqn:Hh.
    + now rewrite !(step_heading _ _ _ Hh).
    + unfold step. destruct (nonblank line) eqn:Hb.
      * destruct (current_section st1) as [n |] eqn:Hc1.
        -- symmetry in Hc.
           destruct Hw1 as (H1 & _). destruct (H1 n Hc1) as (Hk & l1 & Hl1).
           destruct Hw2 as (H2 & _). destruct (H2 n Hc) as (_ & l2 & Hl2).
           now rewrite (step_append _ _ _ _ Hh Hc1 Hk Hb Hl1),
                       (step_append _ _ _ _ Hh Hc Hk Hb Hl2).
        -- symmetry in Hc.
           rewrite (step_no_cursor _ _ Hh Hc1), (step_no_cursor _ _ Hh Hc).
           congruence.
      * rewrite !(step_blank _ _ Hh Hb). congruence.
  - destruct (heading line) as [n |] eqn:Hh.
    + rewrite !(step_heading _ _ _ Hh). simpl. rewrite !lookup_insert.
      case_decide; [reflexivity | assumption].
    + unfold step. destruct (nonblank line) eqn:Hb.
      * destruct (current_section st1) as [n |] eqn:Hc1.
        -- symmetry in Hc.
           destruct Hw1 as (H1 & _). destruct (H1 n Hc1) as (Hk & l1 & Hl1).
           destruct Hw2 as (H2 & _). destruct (H2 n Hc) as (_ & l2 & Hl2).
           rewrite (step_append _ _ _ _ Hh Hc1 Hk Hb Hl1),
                   (step_append _ _ _ _ Hh Hc Hk Hb Hl2). simpl.
           rewrite !lookup_insert. case_decide; [| assumption].
           subst n. congruence.
        -- symmetry in Hc.
           now rewrite (step_no_cursor _ _ Hh Hc1), (step_no_cursor _ _ Hh Hc).
      * now rewrite !(step_blank _ _ Hh Hb).
Qed.

(** After the last heading of a section, the section holds the body of
    the lines that follow, whatever came before. *)
Lemma section_after_heading name before h after :
  heading h = Some name ->
  Forall (fun l => heading l <> Some name) after ->
  exists st,
    scan (before ++ h :: after) scan_start = Ok st
    /\ wf st
    /\ sections st !! name = Some (Some (body after)).
Proof.
  intros Hh Hafter. exists (fold_left step (before ++ h :: after) scan_start).
  split; [apply scan_ok, wf_start |].
  split; [apply wf_steps, wf_start |].
  rewrite fold_left_app. simpl.
  set (st0 := fold_left step before scan_start).
  assert (Hw0 : wf st0) by apply wf_steps, wf_start.
  destruct (scan_line_ok st0 h Hw0) as [_ Hw1].
  rewrite (steps_body name after _ []); trivial.
  - now rewrite (step_heading _ _ _ Hh).
  - rewrite (step_heading _ _ _ Hh). simpl. apply lookup_insert_eq.
Qed.

Lemma until_heading_app b h rest n :
  Forall plain b -> heading h = Some n -> until_heading (b ++ h :: rest) = b.
Proof.
  intros Hb Hh. induction Hb as [| l b Hl _ IH]; simpl.
  - now rewrite Hh.
  - rewrite Hl. now f_equal.
Qed.

Lemma until_heading_plain b : Forall plain b -> until_heading b = b.
Proof.
  induction 1 as [| l b Hl _ IH]; simpl; [reflexivity |].
  rewrite Hl. now f_equal.
Qed.

End ScanFacts.

(** ** Facts about score extraction and the parsing stage *)

Module ParseFacts.

Import ReFacts ScanFacts.

Lemma split_sections_ok raw :
  exists st, scan (split_nl raw) scan_start = Ok st
    /\ wf st /\ split_sections raw = Ok (sections st).
Proof.
  exists (fold_left step (split_nl raw) scan_start).
  assert (H : scan (split_nl raw) scan_start
              = Ok (fold_left step (split_nl raw) scan_start))
    by apply scan_ok, wf_start.
  split; [exact H |]. split; [apply wf_steps, wf_start |].
  unfold split_sections. now rewrite H.
Qed.

Lemma search_first_match raw g :
  Re.search score_pattern raw = Some g <->
  exists pre s, first_score_match raw pre s g.
Proof.
  rewrite search_some. split.
  - intros (pre & s & Hraw & Hr & Hmin). exists pre, s.
    split; [exact Hraw |]. split; [now apply run_score_pattern |].
    intros pre1 s1 g1 H1 Hlen Hm. apply run_score_pattern in Hm.
    rewrite (Hmin pre1 s1 H1 Hlen) in Hm. discriminate.
  - intros (pre & s & Hraw & Hm & Hmin). exists pre, s.
    split; [exact Hraw |]. split; [now apply run_score_pattern |].
    intros pre1 s1 H1 Hlen.
    destruct (Re.run score_pattern s1 []) as [g1 |] eqn:E; [| reflexivity].
    destruct (Hmin pre1 s1 g1 H1 Hlen). now apply run_score_pattern.
Qed.

Lemma search_no_match raw :
  Re.search score_pattern raw = None <->
  forall pre s g, raw = pre ++ s -> ~ score_match_at s g.
Proof.
  rewrite search_none. split.
  - intros H pre s g Hraw Hm. apply run_score_pattern in Hm.
    rewrite (H pre s Hraw) in Hm. discriminate.
  - intros H pre s Hraw.
    destruct (Re.run score_pattern s []) as [g |] eqn:E; [| reflexivity].
    destruct (H pre s g Hraw). now apply run_score_pattern.
Qed.

(** The leftmost match is unique. *)
Lemma first_match_unique raw pre s g pre' s' g' :
  first_score_match raw pre s g -> first_score_match raw pre' s' g' ->
  g = g'.
Proof.
  intros H H'.
  assert (E : Re.search score_pattern raw = Some g)
    by (apply search_first_match; eauto).
  assert (E' : Re.search score_pattern raw = Some g')
    by (apply search_first_match; eauto).
  congruence.
Qed.

(** The score is the number written by group 1 of the leftmost match,
    when [int] takes that many digits. *)
Lemma extract_score_match raw g :
  Re.search score_pattern raw = Some g ->
  g <> [] /\ Forall (fun c => isdecimal c = true) g
  /\ extract_score raw
     = if (int_max_str_digits <? length g)%nat then Raise ValueError
       else Ok (Some (value_of_digits g)).
Proof.
  intros E. unfold extract_score. rewrite E.
  apply search_some in E. destruct E as (pre & s & _ & Hr & _).
  apply run_score_pattern, score_group_digits in Hr. destruct Hr as [Hne Hd].
  split; [exact Hne |]. split; [exact Hd |].
  rewrite (PyFacts.int_of_digits g Hne Hd).
  now destruct (int_max_str_digits <? length g)%nat.
Qed.

Lemma extract_score_short raw g :
  Re.search score_pattern raw = Some g ->
  (length g <= int_max_str_digits)%nat ->
  extract_score raw = Ok (Some (value_of_digits g)).
Proof.
  intros E Hlen. destruct (extract_score_match raw g E) as (_ & _ & ->).
  now rewrite (proj2 (Nat.ltb_ge _ _) Hlen).
Qed.

Lemma extract_score_long raw g :
  Re.search score_pattern raw = Some g ->
  (int_max_str_digits < length g)%nat ->
  extract_score raw = Raise ValueError.
Proof.
  intros E Hlen. destruct (extract_score_match raw g E) as (_ & _ & ->).
  now rewrite (proj2 (Nat.ltb_lt _ _) Hlen).
Qed.

Lemma extract_score_no_match raw :
  Re.search score_pattern raw = None -> extract_score raw = Ok None.
Proof. intros E. unfold extract_score. now rewrite E. Qed.

(** What [extract_score] can do: no score without a match, the number of
    a short enough digit group, [ValueError] on a longer one. *)
Lemma extract_score_cases raw :
  (Re.search score_pattern raw = None /\ extract_score raw = Ok None)
  \/ (exists g, Re.search score_pattern raw = Some g
         /\ (length g <= int_max_str_digits)%nat
         /\ extract_score raw = Ok (Some (value_of_digits g)))
  \/ (exists g, Re.search score_pattern raw = Some g
         /\ (int_max_str_digits < length g)%nat
         /\ extract_score raw = Raise ValueError).
Proof.
  destruct (Re.search score_pattern raw) as [g |] eqn:E.
  - destruct (Nat.le_gt_cases (length g) int_max_str_digits) as [Hle | Hgt].
    + right. left. exists g. split; [reflexivity |]. split; [exact Hle |].
      now apply extract_score_short.
    + right. right. exists g. split; [reflexivity |]. split; [exact Hgt |].
      now apply (extract_score_long raw g).
  - left. split; [reflexivity |]. now apply extract_score_no_match.
Qed.

(** Once the score is there, the scan completes the result. *)
Lemma parse_sections raw score :
  extract_score raw = Ok score ->
  exists st,
    scan (split_nl raw) scan_start = Ok st /\ wf st
    /\ parse raw = Ok {| completenessScore := score; sectionLines := sections st |}.
Proof.
  intros Hs. destruct (split_sections_ok raw) as (st & Hscan & Hwf & Hsec).
  exists st. split; [exact Hscan |]. split; [exact Hwf |].
  unfold parse. now rewrite Hs, Hsec.
Qed.

Lemma parse_score raw r :
  parse raw = Ok r -> extract_score raw = Ok (completenessScore r).
Proof.
  unfold parse. destruct (extract_score raw) as [score | e]; [| discriminate].
  simpl. destruct (split_sections raw) as [secs | e]; [| discriminate].
  simpl. intros H. now injection H as <-.
Qed.

Lemma parse_raises raw e : extract_score raw = Raise e -> parse raw = Raise e.
Proof. intros H. unfold parse. now rewrite H. Qed.

(** A run of digits between the words and "/10" is the group of the
    match at the start of the text. *)
Lemma search_digits d rest :
  d <> [] -> Forall (fun c => isdecimal c = true) d ->
  Re.search score_pattern (u "Completeness Score: " ++ d ++ u "/10" ++ rest)
  = Some d.
Proof.
  intros Hne Hd. apply (proj2 (search_first_match _ d)).
  exists [], (u "Completeness Score: " ++ d ++ u "/10" ++ rest).
  split; [reflexivity |]. split.
  - exists (u "Completeness Score:"), [0x20], rest.
    split; [reflexivity |]. split; [repeat constructor |].
    split; [repeat constructor |]. split; assumption.
  - intros pre1 s1 g1 _ Hlen. simpl in Hlen. lia.
Qed.

End ParseFacts.

(** ** Properties of the specification *)

Import ReFacts ScanFacts ParseFacts.

(** C4, as stated, does not hold: the specification writes the pattern
    with one blank between the colon and the digits; the response
    "Completeness Score:7/10" has no match of that pattern, yet the
    script finds the score 7 in it. *)
Lemma score_pattern_blank_counterexample :
  Re.search stated_score_pattern (u "Completeness Score:7/10") = None
  /\ extract_score (u "Completeness Score:7/10") = Ok (Some 7%Z).
Proof. split; vm_compute; reflexivity. Qed.

(** C4, amended: score extraction searches the response, without regard
    to letter case, for "Completeness Score:" followed by any run of
    white space (possibly empty), one or more digits and "/10". The
    score is absent exactly when no position of the response has such a
    match, and it is never a default of 0: a score that is returned is
    the number written by the digits of the leftmost match, and it is
    returned whenever these digits are at most 4300, the longest run
    that [int] converts. The one failure is the [ValueError] of [int]
    on a leftmost match with more digits than that. *)
Theorem score_is_first_match (raw : list N) :
  (extract_score raw = Ok None <->
     forall pre s g, raw = pre ++ s -> ~ score_match_at s g)
  /\ (forall pre s g,
        first_score_match raw pre s g ->
        (length g <= int_max_str_digits)%nat ->
        extract_score raw = Ok (Some (value_of_digits g)))
  /\ (forall score,
        extract_score raw = Ok (Some score) ->
        exists pre s g,
          first_score_match raw pre s g /\ score = value_of_digits g)
  /\ (forall e,
        extract_score raw = Raise e ->
        e = ValueError
        /\ exists pre s g,
             first_score_match raw pre s g
             /\ (int_max_str_digits < length g)%nat).
Proof.
  assert (Hfirst : forall g0,
            Re.search score_pattern raw = Some g0 ->
            forall pre s g, first_score_match raw pre s g -> g = g0).
  { intros g0 E pre s g Hf.
    assert (E' : Re.search score_pattern raw = Some g)
      by (apply search_first_match; eauto).
    congruence. }
  destruct (extract_score_cases raw)
    as [(E & Hs) | [(g0 & E & Hlen & Hs) | (g0 & E & Hlen & Hs)]];
    rewrite Hs.
  - split; [| split; [| split]].
    + split; [intros _; now apply search_no_match | reflexivity].
    + intros pre s g Hf _.
      assert (E' : Re.search score_pattern raw = Some g)
        by (apply search_first_match; eauto).
      congruence.
    + discriminate.
    + discriminate.
  - split; [| split; [| split]].
    + split; [discriminate |]. intros H. apply search_no_match in H. congruence.
    + intros pre s g Hf _. now rewrite (Hfirst g0 E pre s g Hf).
    + intros score H. injection H as <-.
      apply search_first_match in E. destruct E as (pre & s & Hf). eauto.
    + discriminate.
  - split; [| split; [| split]].
    + split; [discriminate |]. intros H. apply search_no_match in H. congruence.
    + intros pre s g Hf Hle. rewrite (Hfirst g0 E pre s g Hf) in Hle. lia.
    + discriminate.
    + intros e H. injection H as <-. split; [reflexivity |].
      apply search_first_match in E. destruct E as (pre & s & Hf). eauto.
Qed.

Lemma score_is_first_match_witness :
  extract_score (u "Score. completeness score:  42/10!") = Ok (Some 42%Z).
Proof.
  destruct (score_is_first_match (u "Score. completeness score:  42/10!"))
    as (_ & H & _).
  apply (H (u "Score. ") (u "completeness score:  42/10!") (u "42")).
  - split; [reflexivity |]. split.
    + exists (u "completeness score:"), (u "  "), (u "!").
      split; [reflexivity |]. split; [repeat constructor |].
      split; [repeat constructor |]. split; [repeat constructor | discriminate].
    + intros pre1 s1 g1 Heq Hlen Hm. apply run_score_pattern in Hm.
      vm_compute in Heq.
      do 7 (destruct pre1 as [| ? pre1];
            [ simpl in Heq; subst s1; vm_compute in Hm; discriminate Hm
            | vm_compute in Heq; injection Heq as _ Heq; simpl in Hlen ]).
      lia.
  - apply Nat.ltb_ge. reflexivity.
Defined.

(** C10, as stated, does not hold: the digits in front of "/10" are
    taken as they are, so a response can give the score 0 or 15. The
    score 0 goes through the whole display: its card is shown and the
    run ends well. *)
Lemma score_out_of_range_counterexample :
  (exists r, parse (u "Completeness Score: 15/10") = Ok r
     /\ completenessScore r = Some 15%Z)
  /\ (exists r, parse (u "Completeness Score: 0/10") = Ok r
     /\ completenessScore r = Some 0%Z)
  /\ (exists shown,
        show_analysis (JStr (u "Completeness Score: 0/10"))
        = ([StSuccess AnalysisComplete; StBalloons; ScoreHeading 0;
            StProgress 0; ProgressColor (u "#e74c3c")] ++ shown, Ok tt))
  /\ ~ (1 <= 15 <= 10)%Z /\ ~ (1 <= 0 <= 10)%Z.
Proof.
  split; [| split; [| split; [| split]]].
  - eexists. split; [vm_compute; reflexivity | reflexivity].
  - eexists. split; [vm_compute; reflexivity | reflexivity].
  - eexists. vm_compute. reflexivity.
  - lia.
  - lia.
Qed.

(** C10, amended: every result of the parsing stage has a
    completenessScore that is either absent, when the response has no
    match of the pattern, or the number written by the digits in front
    of "/10" in the leftmost match, a non-negative integer; no upper
    bound and no lower bound of 1 is enforced. A result is produced
    whenever the leftmost match, if there is one, has at most 4300
    digits. *)
Theorem score_absent_or_natural (raw : list N) :
  (forall r,
     parse raw = Ok r ->
     (completenessScore r = None
      /\ forall pre s g, raw = pre ++ s -> ~ score_match_at s g)
     \/ (exists pre s g,
           first_score_match raw pre s g
           /\ completenessScore r = Some (value_of_digits g)
           /\ (0 <= value_of_digits g)%Z))
  /\ ((forall pre s g,
         first_score_match raw pre s g ->
         (length g <= int_max_str_digits)%nat) ->
      exists r, parse raw = Ok r).
Proof.
  split.
  - intros r Hp. apply parse_score in Hp.
    destruct (extract_score_cases raw)
      as [(E & Hs) | [(g & E & _ & Hs) | (g & _ & _ & Hs)]].
    + left. split; [congruence | now apply search_no_match].
    + right. apply search_first_match in E. destruct E as (pre & s & Hf).
      exists pre, s, g. split; [exact Hf |].
      split; [congruence | apply PyFacts.value_of_digits_nonneg].
    + congruence.
  - intros Hshort.
    destruct (extract_score_cases raw)
      as [(_ & Hs) | [(g & _ & _ & Hs) | (g & E & Hlen & _)]].
    + destruct (parse_sections raw _ Hs) as (st & _ & _ & Hp). eauto.
    + destruct (parse_sections raw _ Hs) as (st & _ & _ & Hp). eauto.
    + apply search_first_match in E. destruct E as (pre & s & Hf).
      pose proof (Hshort pre s g Hf). lia.
Qed.

Lemma score_absent_or_natural_witness :
  exists r, parse (u "Completeness Score: 15/10") = Ok r.
Proof.
  apply (proj2 (score_absent_or_natural (u "Completeness Score: 15/10"))).
  intros pre s g Hf.
  assert (E : Re.search score_pattern (u "Completeness Score: 15/10") = Some g)
    by (apply search_first_match; eauto).
  vm_compute in E. injection E as <-. apply Nat.ltb_ge. reflexivity.
Defined.

(** C5 is not met by the code. The conversion of line 490 raises
    [ValueError] on a score of more than 4300 digits, so the parsing
    stage raises on the response "Completeness Score: 11...1/10" with
    4301 digits; and a score above 10 ends the display at the progress
    bar of line 516, before the scan: on "Completeness Score: 11/10" the
    run shows the heading of the card and fails, and neither the
    sections nor the raw response are shown. *)
Theorem long_score_raises :
  extract_score (u "Completeness Score: " ++ repeat 0x31 4301 ++ u "/10")
  = Raise ValueError
  /\ parse (u "Completeness Score: " ++ repeat 0x31 4301 ++ u "/10")
     = Raise ValueError
  /\ show_analysis (JStr (u "Completeness Score: 11/10"))
     = ([StSuccess AnalysisComplete; StBalloons; ScoreHeading 11],
        Raise StreamlitAPIException).
Proof.
  assert (H : extract_score
                (u "Completeness Score: " ++ repeat 0x31 4301 ++ u "/10")
              = Raise ValueError).
  { apply extract_score_long with (repeat 0x31 4301).
    - rewrite <- (app_nil_r (u "/10")). apply search_digits.
      + discriminate.
      + apply List.Forall_forall. intros c Hc. apply repeat_spec in Hc.
        now subst c.
    - rewrite repeat_length. apply Nat.ltb_lt. reflexivity. }
  split; [exact H |]. split; [now apply parse_raises |].
  vm_compute. reflexivity.
Qed.

(** The display of lines 530-570 never raises and always ends with the
    expander that shows the response as it was received. *)
Lemma analysis_results_shows_raw raw :
  exists shown,
    analysis_results raw
    = (shown ++ [Expander (u "View Full AI Analysis") [StMarkdown raw]], Ok tt).
Proof.
  destruct (split_sections_ok raw) as (st & _ & (_ & Hkeys & _) & Hsec).
  destruct (Hkeys K_missing) as [v1 H1]; [now left |].
  destruct (Hkeys K_tips) as [v2 H2]; [right; now left |].
  destruct (Hkeys K_feedback) as [v3 H3]; [right; now right |].
  unfold analysis_results. rewrite Hsec. cbn [io_bind emit lift].
  unfold show_sections, getitem. rewrite H1, H2, H3.
  cbn [io_bind emit lift].
  destruct (filled v1), (filled v2), (filled v3); cbn [app];
    match goal with
    | |- exists shown, (?l, _) = _ => exists (removelast l); reflexivity
    end.
Qed.

(** C2: for every raw response, the lines in front of the first heading
    line go to no section (the scan gives what it gives on the remaining
    lines alone), no section list ever holds a blank line, and the
    display ends with the raw response shown in full, unchanged. *)
Theorem lines_before_first_heading_dropped (raw : list N) :
  (forall pre rest,
     split_nl raw = pre ++ rest -> Forall plain pre ->
     split_sections raw = (let! st := scan rest scan_start in Ok (sections st)))
  /\ (exists secs, split_sections raw = Ok secs
        /\ forall name lines, secs !! name = Some (Some lines) ->
             Forall (fun l => nonblank l = true) lines)
  /\ (exists shown,
        analysis_results raw
        = (shown ++ [Expander (u "View Full AI Analysis") [StMarkdown raw]],
           Ok tt)).
Proof.
  split; [| split].
  - intros pre rest Hsplit Hpre. unfold split_sections. rewrite Hsplit.
    rewrite !scan_ok by apply wf_start.
    rewrite fold_left_app, (steps_plain pre scan_start eq_refl Hpre).
    reflexivity.
  - destruct (split_sections_ok raw) as (st & _ & (_ & _ & Hb) & Hsec).
    exists (sections st). split; [exact Hsec | exact Hb].
  - apply analysis_results_shows_raw.
Qed.

Lemma lines_before_first_heading_dropped_witness :
  split_sections
    (join_nl [u "Here is my review."; u "### Improvement Tips:"; u "Add units"])
  = split_sections (join_nl [u "### Improvement Tips:"; u "Add units"]).
Proof.
  rewrite (proj1 (lines_before_first_heading_dropped
                    (join_nl [u "Here is my review."; u "### Improvement Tips:";
                              u "Add units"]))
             [u "Here is my review."]
             [u "### Improvement Tips:"; u "Add units"]).
  - vm_compute. reflexivity.
  - vm_compute. reflexivity.
  - repeat constructor.
Defined.

(** C3, as stated, does not hold: a marker that stands on a line beside
    a marker tested before it opens nothing. Here "### Improvement
    Tips:" occurs on the first and on the third line; the third line
    also holds "### Missing Sections:" and is taken for that heading, so
    Improvement Tips keeps the content gathered after its first
    occurrence and the line after the last occurrence goes to Missing
    Sections. *)
Lemma marker_beside_earlier_marker_counterexample :
  contains (u "### Improvement Tips:")
           (u "### Missing Sections: see ### Improvement Tips: below") = true
  /\ exists secs,
       split_sections
         (join_nl [u "### Improvement Tips:"; u "old tip";
                   u "### Missing Sections: see ### Improvement Tips: below";
                   u "new"]) = Ok secs
       /\ secs !! K_tips = Some (Some [u "old tip"])
       /\ secs !! K_missing = Some (Some [u "new"])
       /\ secs !! K_tips <> Some (Some [u "new"]).
Proof.
  split; [vm_compute; reflexivity |].
  eexists. split; [vm_compute; reflexivity |].
  split; [vm_compute; reflexivity |].
  split; [vm_compute; reflexivity | vm_compute; discriminate].
Qed.

(** C3, amended: an occurrence of a heading is a line that the chain of
    tests takes for it: the line holds the marker of the section and no
    marker tested before it ("### Missing Sections:" is tested first,
    then "### Improvement Tips:", then "### Detailed Feedback:"). Such a
    line starts the section's list anew, so the section ends up with the
    same content as if the response began at that line; when the
    heading does not occur again, that content is the non-blank lines
    up to the next heading. Only the last occurrence counts. *)
Theorem repeated_heading_last_wins (raw h name : list N)
    (before after : list (list N)) :
  split_nl raw = before ++ h :: after ->
  heading h = Some name ->
  ((name = K_missing /\ contains (u "### Missing Sections:") h = true)
   \/ (name = K_tips
       /\ contains (u "### Missing Sections:") h = false
       /\ contains (u "### Improvement Tips:") h = true)
   \/ (name = K_feedback
       /\ contains (u "### Missing Sections:") h = false
       /\ contains (u "### Improvement Tips:") h = false
       /\ contains (u "### Detailed Feedback:") h = true))
  /\ (forall st, scan_line st h = Ok (open_section name st)
                 /\ sections (open_section name st) !! name = Some (Some []))
  /\ exists secs secs',
       split_sections raw = Ok secs
       /\ (let! st := scan (h :: after) scan_start in Ok (sections st))
          = Ok secs'
       /\ secs !! name = secs' !! name
       /\ (Forall (fun l => heading l <> Some name) after ->
           secs !! name = Some (Some (body after))).
Proof.
  intros Hsplit Hh. split; [| split].
  - revert Hh. unfold heading.
    destruct (contains (u "### Missing Sections:") h);
      [intros H; injection H as <-; now left |].
    destruct (contains (u "### Improvement Tips:") h);
      [intros H; injection H as <-; right; now left |].
    destruct (contains (u "### Detailed Feedback:") h);
      [intros H; injection H as <-; right; now right | discriminate].
  - intros st. split; [now apply scan_line_heading | apply lookup_insert_eq].
  - unfold split_sections. rewrite Hsplit.
    rewrite !scan_ok by apply wf_start. simpl bind.
    eexists. eexists. split; [reflexivity |]. split; [reflexivity |].
    rewrite fold_left_app. simpl fold_left.
    set (st0 := fold_left step before scan_start).
    assert (Hw0 : wf st0) by apply wf_steps, wf_start.
    assert (Hk : is_key name) by now apply heading_is_key with h.
    rewrite !(step_heading _ _ _ Hh).
    split.
    + apply steps_agree.
      * now apply wf_open.
      * apply wf_open; [assumption | apply wf_start].
      * reflexivity.
      * simpl. now rewrite !lookup_insert_eq.
    + intros Hlast.
      rewrite (steps_body name after _ []); trivial.
      * now apply wf_open.
      * apply lookup_insert_eq.
Qed.

Lemma repeated_heading_last_wins_witness :
  exists secs,
    split_sections
      (join_nl [u "### Improvement Tips:"; u "old tip";
                u "### Improvement Tips:"; u "new tip"]) = Ok secs
    /\ secs !! K_tips = Some (Some [u "new tip"]).
Proof.
  destruct (repeated_heading_last_wins
              (join_nl [u "### Improvement Tips:"; u "old tip";
                        u "### Improvement Tips:"; u "new tip"])
              (u "### Improvement Tips:") K_tips
              [u "### Improvement Tips:"; u "old tip"] [u "new tip"])
    as (_ & _ & secs & secs' & H1 & _ & _ & H2).
  - vm_compute. reflexivity.
  - vm_compute. reflexivity.
  - exists secs. split; [exact H1 |]. rewrite H2.
    + vm_compute. reflexivity.
    + repeat constructor. vm_compute. discriminate.
Defined.

(** C1, as stated, does not hold: the scan knows three headings only.
    The line "### Completeness Score: 7/10" and the lines after it are
    added to the list of Missing Sections, which therefore is not the
    lines between its heading and the next heading. *)
Lemma score_line_kept_in_missing_counterexample :
  exists r,
    parse (join_nl [u "### Missing Sections:"; u "References";
                    u "### Completeness Score: 7/10"; u "Good";
                    u "### Improvement Tips:"; u "Add refs";
                    u "### Detailed Feedback:"; u "Nice"]) = Ok r
    /\ sectionLines r !! K_missing
       = Some (Some [u "References"; u "### Completeness Score: 7/10"; u "Good"])
    /\ sectionLines r !! K_missing <> Some (Some [u "References"]).
Proof.
  eexists. split; [vm_compute; reflexivity |].
  split; [vm_compute; reflexivity | vm_compute; discriminate].
Qed.

Lemma score_heading_found tail :
  Re.search score_pattern (u "### Completeness Score: 7/10" ++ tail)
  = Some (u "7").
Proof. reflexivity. Qed.

Lemma filter_nonblank_exists l :
  Exists (fun x => nonblank x = true) l -> List.filter nonblank l <> [].
Proof.
  induction 1 as [x l Hx | x l _ IH]; simpl.
  - now rewrite Hx.
  - destruct (nonblank x); [discriminate | assumption].
Qed.

(** C1, amended: take a response whose lines are, in this order, a line
    recognised as the Missing Sections heading, the line
    "### Completeness Score: 7/10", a line recognised as the Improvement
    Tips heading and a line recognised as the Detailed Feedback heading,
    with lines that are no section heading around them and no mention of
    the words "Completeness Score:" before the score line. Then the
    score is 7; the Missing Sections list is the non-blank lines between
    its heading and the Improvement Tips heading, the score line and
    what follows it included; the Improvement Tips list is the non-blank
    lines up to the Detailed Feedback heading; the Detailed Feedback list
    is the non-blank lines up to the end. The three lists are non-empty
    as soon as the last two headings are followed by a non-blank line. *)
Theorem four_headings_in_order
    (hM hT hF : list N) (pre b1 b2 b3 b4 : list (list N)) :
  let hS := u "### Completeness Score: 7/10" in
  let lines := pre ++ hM :: b1 ++ hS :: b2 ++ hT :: b3 ++ hF :: b4 in
  Forall one_line lines ->
  heading hM = Some K_missing ->
  heading hT = Some K_tips ->
  heading hF = Some K_feedback ->
  Forall plain (pre ++ b1 ++ b2 ++ b3 ++ b4) ->
  Forall (fun l => mentions_score l = false) (pre ++ hM :: b1) ->
  Exists (fun l => nonblank l = true) b3 ->
  Exists (fun l => nonblank l = true) b4 ->
  exists r,
    parse (join_nl lines) = Ok r
    /\ completenessScore r = Some 7%Z
    /\ sectionLines r !! K_missing
       = Some (Some (List.filter nonblank (b1 ++ hS :: b2)))
    /\ sectionLines r !! K_tips = Some (Some (List.filter nonblank b3))
    /\ sectionLines r !! K_feedback = Some (Some (List.filter nonblank b4))
    /\ List.filter nonblank (b1 ++ hS :: b2) <> []
    /\ List.filter nonblank b3 <> []
    /\ List.filter nonblank b4 <> [].
Proof.
  intros hS lines Hone HM HT HF Hplain Hquiet Hb3 Hb4.
  assert (HS : heading hS = None) by reflexivity.
  apply Forall_app in Hplain. destruct Hplain as [Ppre Hplain].
  apply Forall_app in Hplain. destruct Hplain as [P1 Hplain].
  apply Forall_app in Hplain. destruct Hplain as [P2 Hplain].
  apply Forall_app in Hplain. destruct Hplain as [P3 P4].
  assert (Hne : lines <> []) by (unfold lines; now destruct pre).
  assert (Hsearch : Re.search score_pattern (join_nl lines) = Some (u "7")).
  { unfold lines.
    change (pre ++ hM :: b1 ++ hS :: b2 ++ hT :: b3 ++ hF :: b4)
      with (pre ++ (hM :: b1) ++ hS :: b2 ++ hT :: b3 ++ hF :: b4).
    rewrite app_assoc, search_past_lines by (assumption || discriminate).
    destruct (b2 ++ hT :: b3 ++ hF :: b4) as [| l more] eqn:E.
    - now destruct b2.
    - change (join_nl (hS :: l :: more))
        with (hS ++ NL :: join_nl (l :: more)).
      apply score_heading_found. }
  assert (Hs : extract_score (join_nl lines) = Ok (Some 7%Z)).
  { apply (extract_score_short _ _ Hsearch). apply Nat.ltb_ge. reflexivity. }
  destruct (parse_sections _ _ Hs) as (st & Hscan & _ & Hp).
  rewrite (PyFacts.split_join lines Hne Hone) in Hscan.
  exists {| completenessScore := Some 7%Z; sectionLines := sections st |}.
  split; [exact Hp |]. simpl.
  assert (Hother : forall (b : list (list N)) n,
            Forall plain b -> Forall (fun l => heading l <> Some n) b).
  { intros b n Hb. eapply Forall_impl; [exact Hb |].
    intros l Hl. unfold plain in Hl. congruence. }
  split; [| split; [| split; [| split; [| split; [| split]]]]].
  - reflexivity.
  - destruct (section_after_heading K_missing pre hM
                (b1 ++ hS :: b2 ++ hT :: b3 ++ hF :: b4) HM) as (st' & H1 & _ & H2).
    { apply Forall_app. split; [now apply Hother |].
      constructor; [congruence |].
      apply Forall_app. split; [now apply Hother |].
      constructor; [rewrite HT; discriminate |].
      apply Forall_app. split; [now apply Hother |].
      constructor; [rewrite HF; discriminate | now apply Hother]. }
    unfold lines in Hscan. rewrite Hscan in H1. injection H1 as <-.
    rewrite H2. unfold body. do 3 f_equal.
    change (b1 ++ hS :: b2 ++ hT :: b3 ++ hF :: b4)
      with (b1 ++ [hS] ++ b2 ++ hT :: b3 ++ hF :: b4).
    rewrite !app_assoc, <- (app_assoc b1).
    apply until_heading_app with K_tips; [| assumption].
    apply Forall_app. split; [assumption |]. now constructor.
  - destruct (section_after_heading K_tips (pre ++ hM :: b1 ++ hS :: b2) hT
                (b3 ++ hF :: b4) HT) as (st' & H1 & _ & H2).
    { apply Forall_app. split; [now apply Hother |].
      constructor; [rewrite HF; discriminate | now apply Hother]. }
    unfold lines in Hscan.
    replace ((pre ++ hM :: b1 ++ hS :: b2) ++ hT :: b3 ++ hF :: b4)
      with (pre ++ hM :: b1 ++ hS :: b2 ++ hT :: b3 ++ hF :: b4) in H1
      by (rewrite <- !app_assoc; simpl; now rewrite <- !app_assoc).
    rewrite Hscan in H1. injection H1 as <-.
    rewrite H2. unfold body. do 3 f_equal.
    now apply until_heading_app with K_feedback.
  - destruct (section_after_heading K_feedback
                (pre ++ hM :: b1 ++ hS :: b2 ++ hT :: b3) hF b4 HF)
      as (st' & H1 & _ & H2).
    { now apply Hother. }
    unfold lines in Hscan.
    replace ((pre ++ hM :: b1 ++ hS :: b2 ++ hT :: b3) ++ hF :: b4)
      with (pre ++ hM :: b1 ++ hS :: b2 ++ hT :: b3 ++ hF :: b4) in H1
      by (rewrite <- !app_assoc; simpl; rewrite <- !app_assoc; simpl;
          now rewrite <- !app_assoc).
    rewrite Hscan in H1. injection H1 as <-.
    rewrite H2. unfold body. do 3 f_equal.
    now apply until_heading_plain.
  - apply filter_nonblank_exists. apply Exists_app. right. now left.
  - now apply filter_nonblank_exists.
  - now apply filter_nonblank_exists.
Qed.

Lemma four_headings_in_order_witness :
  exists r,
    parse (join_nl [u "Here is my review."; u "### Missing Sections:";
                    u "References"; u "### Completeness Score: 7/10";
                    u "Good"; u "### Improvement Tips:"; u "Add refs";
                    u "### Detailed Feedback:"; u "Nice"]) = Ok r
    /\ completenessScore r = Some 7%Z
    /\ sectionLines r !! K_missing
       = Some (Some [u "References"; u "### Completeness Score: 7/10"; u "Good"])
    /\ sectionLines r !! K_tips = Some (Some [u "Add refs"])
    /\ sectionLines r !! K_feedback = Some (Some [u "Nice"]).
Proof.
  destruct (four_headings_in_order
              (u "### Missing Sections:") (u "### Improvement Tips:")
              (u "### Detailed Feedback:")
              [u "Here is my review."] [u "References"] [u "Good"]
              [u "Add refs"] [u "Nice"])
    as (r & Hp & Hs & H1 & H2 & H3 & _).
  - repeat constructor; vm_compute; intros H;
      repeat (destruct H as [H | H]; [discriminate H |]); destruct H.
  - vm_compute. reflexivity.
  - vm_compute. reflexivity.
  - vm_compute. reflexivity.
  - repeat constructor.
  - repeat constructor.
  - left. vm_compute. reflexivity.
  - left. vm_compute. reflexivity.
  - exists r. split; [exact Hp |]. split; [exact Hs |].
    split; [exact H1 |]. split; [exact H2 | exact H3].
Defined.

(** ** PDF extraction *)

Lemma read_pages_texts texts acc :
  read_pages (List.map Ok texts) acc
  = (acc ++ concat (List.map (fun t => t ++ [NL]) texts), None).
Proof.
  revert acc. induction texts as [| t texts IH]; intros acc; simpl.
  - now rewrite app_nil_r.
  - rewrite IH. now rewrite <- !app_assoc.
Qed.

Lemma concat_terminated t texts :
  concat (List.map (fun t => t ++ [NL]) (t :: texts))
  = join_nl (t :: texts) ++ [NL].
Proof.
  revert t. induction texts as [| t' texts IH]; intros t.
  - simpl. now rewrite app_nil_r.
  - change (join_nl (t :: t' :: texts)) with (t ++ NL :: join_nl (t' :: texts)).
    change (concat (List.map (fun t => t ++ [NL]) (t :: t' :: texts)))
      with ((t ++ [NL])
            ++ concat (List.map (fun t => t ++ [NL]) (t' :: texts))).
    rewrite IH. now rewrite <- !app_assoc.
Qed.

Lemma extract_pdf_texts texts :
  extract_pdf (Ok (List.map Ok texts))
  = ([StSuccess PdfExtracted], concat (List.map (fun t => t ++ [NL]) texts)).
Proof. unfold extract_pdf. now rewrite read_pages_texts. Qed.

(** C6, as stated, does not hold: every page is followed by a newline,
    the last one too. For a document of one page with the text "abc" the
    claim gives "abc" (no separator); the script gives "abc" and a
    newline. *)
Lemma pdf_trailing_newline_counterexample :
  extract_pdf (Ok [Ok (u "abc")]) = ([StSuccess PdfExtracted], u "abc" ++ [NL])
  /\ snd (extract_pdf (Ok [Ok (u "abc")])) <> join_nl [u "abc"].
Proof. split; [reflexivity | vm_compute; discriminate]. Qed.

(** C6, amended: for a document that opens and whose N pages all give
    their text, extraction succeeds and returns the texts of the pages in
    page order, each followed by one newline: N newlines are added, N-1
    of them between pages and one after the last page. The result is a
    function of the page texts alone, so extracting the same document
    again gives the same text. *)
Theorem pdf_pages_newline_terminated (texts : list (list N)) :
  extract_pdf (Ok (List.map Ok texts))
  = ([StSuccess PdfExtracted], concat (List.map (fun t => t ++ [NL]) texts))
  /\ length (snd (extract_pdf (Ok (List.map Ok texts))))
     = (length (concat texts) + length texts)%nat
  /\ (forall t more, texts = t :: more ->
        snd (extract_pdf (Ok (List.map Ok texts))) = join_nl texts ++ [NL]).
Proof.
  pose proof (extract_pdf_texts texts) as H.
  split; [exact H |]. rewrite H. simpl snd. split.
  - clear H. induction texts as [| t texts IH]; simpl; [reflexivity |].
    rewrite !length_app, IH. simpl. lia.
  - intros t more ->. apply concat_terminated.
Qed.

Lemma pdf_pages_newline_terminated_witness :
  snd (extract_pdf (Ok [Ok (u "page one"); Ok (u "page two")]))
  = join_nl [u "page one"; u "page two"] ++ [NL].
Proof.
  apply (proj2 (proj2 (pdf_pages_newline_terminated
                         [u "page one"; u "page two"]))
           (u "page one") [u "page two"]).
  reflexivity.
Defined.

Lemma read_pages_error pages acc :
  (exists e, In (Raise e) pages) <->
  (exists e t, read_pages pages acc = (t, Some e)).
Proof.
  revert acc. induction pages as [| p pages IH]; intros acc; simpl.
  - split.
    + intros (e & []).
    + intros (e & t & H). discriminate.
  - destruct p as [t | e].
    + rewrite <- IH. split.
      * intros (e & [H | H]); [discriminate | eauto].
      * intros (e & H). eauto.
    + split; eauto.
Qed.

(** C7: a page without text gives an empty segment (only its newline)
    and the extraction succeeds; the extraction reports an error exactly
    when the document does not open or the text extraction of one of
    its pages raises. *)
Theorem pdf_error_only_when_library_raises (doc : pdf) :
  (forall before after,
     extract_pdf (Ok (List.map Ok before ++ Ok [] :: List.map Ok after))
     = ([StSuccess PdfExtracted],
        concat (List.map (fun t => t ++ [NL]) before)
        ++ [NL] ++ concat (List.map (fun t => t ++ [NL]) after)))
  /\ ((exists e t, extract_pdf doc = ([StError (PdfReadError e)], t)) <->
      (exists e, doc = Raise e)
      \/ (exists pages e, doc = Ok pages /\ In (Raise e) pages))
  /\ ((exists t, extract_pdf doc = ([StSuccess PdfExtracted], t)) <->
      (exists texts, doc = Ok (List.map Ok texts))).
Proof.
  split; [| split].
  - intros before after.
    change (Ok [] :: List.map Ok after)
      with (List.map (@Ok (list N)) ([] :: after)).
    rewrite <- List.map_app.
    rewrite extract_pdf_texts.
    now rewrite List.map_app, concat_app.
  - destruct doc as [pages | e0]; simpl.
    + split.
      * intros (e & t & H). right. exists pages.
        destruct (read_pages pages []) as [t' [e' |]] eqn:E; [| discriminate].
        destruct (proj2 (read_pages_error pages [])) as [e1 H1]; eauto.
      * intros [(e & H) | (pages' & e & H & Hin)]; [discriminate |].
        injection H as <-.
        destruct (proj1 (read_pages_error pages [])) as (e1 & t1 & ->); eauto.
    + split; eauto.
  - destruct doc as [pages | e0]; simpl.
    + split.
      * intros (t & H).
        destruct (read_pages pages []) as [t' [e' |]] eqn:E; [discriminate |].
        clear H. revert E. generalize (@nil N) as acc.
        induction pages as [| p pages IH]; intros acc E.
        -- now exists [].
        -- destruct p as [tp | ep]; simpl in E; [| discriminate].
           destruct (IH _ E) as [texts Heq]. exists (tp :: texts).
           injection Heq as ->. reflexivity.
      * intros (texts & H). injection H as ->.
        rewrite read_pages_texts. eauto.
    + split; [intros (t & H); discriminate | intros (texts & H); discriminate].
Qed.

Lemma pdf_error_only_when_library_raises_witness :
  exists e t,
    extract_pdf (Ok [Ok (u "page one"); Raise (LibraryError (u "no text layer"))])
    = ([StError (PdfReadError e)], t).
Proof.
  apply (proj2 (proj1 (proj2 (pdf_error_only_when_library_raises
           (Ok [Ok (u "page one"); Raise (LibraryError (u "no text layer"))]))))).
  right. eexists. eexists. split; [reflexivity |]. right. left. reflexivity.
Defined.

(** ** The AI client and the gate in front of it *)

Lemma query_ai_posts_once net api_key prompt :
  exists tail,
    fst (query_ai net api_key prompt) = Post (chat_request api_key prompt) :: tail
    /\ posts tail = [].
Proof.
  unfold query_ai.
  destruct (try_post net (chat_request api_key prompt)) as [v | | e];
    [| | destruct e]; eexists; split; reflexivity.
Qed.

Lemma posts_cons_post req l : posts (Post req :: l) = req :: posts l.
Proof. reflexivity. Qed.

Lemma io_bind_events {A B} (m : io A) (k : A -> io B) :
  exists more, fst (io_bind m k) = fst m ++ more.
Proof.
  destruct m as [ev [a | e]]; simpl.
  - destruct (k a) as [ev' r]. now exists ev'.
  - exists []. now rewrite app_nil_r.
Qed.

(** With a report to analyse and the button pressed, the first thing
    the block does is to send the analysis prompt. *)
Lemma analysis_request_sent net api_key ui lab_text :
  truthy (strip lab_text) = true -> analyze_button ui = true ->
  exists more,
    fst (ai_evaluation net api_key ui lab_text)
    = Post (chat_request api_key (full_prompt lab_text)) :: more.
Proof.
  intros Ht Hb. unfold ai_evaluation. rewrite Ht, Hb.
  destruct (query_ai_posts_once net api_key (full_prompt lab_text))
    as (tail & Hq & _).
  destruct (query_ai net api_key (full_prompt lab_text)) as [ev result].
  simpl in Hq. subst ev.
  match goal with
  | |- context [io_bind ?m ?k] =>
      destruct (io_bind_events m k) as [more1 ->];
      match m with
      | io_bind ?m' ?k' => destruct (io_bind_events m' k') as [more2 ->]
      end
  end.
  simpl. eauto.
Qed.

(** C8: when the text is empty or white space only, the evaluation
    block builds no prompt and sends nothing: the run shows the sample
    report and that is all, whatever the buttons and the question. *)
Theorem blank_text_sends_nothing
    (net : request -> res response) (api_key : list N) (ui : clicks)
    (lab_text : list N) :
  Forall (fun c => isspace c = true) lab_text ->
  ai_evaluation net api_key ui lab_text = ([SampleReport], Ok tt)
  /\ posts (fst (ai_evaluation net api_key ui lab_text)) = [].
Proof.
  intros H.
  assert (E : ai_evaluation net api_key ui lab_text = ([SampleReport], Ok tt)).
  { unfold ai_evaluation. now rewrite (PyFacts.strip_spaces lab_text H). }
  split; [exact E | now rewrite E].
Qed.

Lemma blank_text_sends_nothing_witness :
  posts (fst (ai_evaluation
                (fun _ => Raise (LibraryError (u "unreachable")))
                (u "key")
                {| analyze_button := true; ask_button := true;
                   user_question := u "What is missing?" |}
                [0x20; 0x0a; 0x09; 0xa0])) = [].
Proof.
  apply (blank_text_sends_nothing
           (fun _ => Raise (LibraryError (u "unreachable"))) (u "key")
           {| analyze_button := true; ask_button := true;
              user_question := u "What is missing?" |}
           [0x20; 0x0a; 0x09; 0xa0]).
  repeat constructor.
Defined.

(** ** Further properties of the script *)

Module More.

Import Pages.

(** *** The AI client *)

Lemma try_post_reply net req r :
  net req = Ok r -> (status_code r =? 401)%Z = false ->
  try_post net req
  = match (let! _ := raise_for_status r in
           let! body := json_body r in content_of body) with
    | Ok v => Returned v
    | Raise e => Raised e
    end.
Proof. intros Hn Hs. unfold try_post. now rewrite Hn, Hs. Qed.

(** X1: an answer with an error status other than 401 is reported with its
    status and body, nothing is returned, and the request is not sent
    again. *)
Theorem http_error_reported
    (net : request -> res response) (api_key prompt : list N) (r : response) :
  net (chat_request api_key prompt) = Ok r ->
  (400 <= status_code r < 600)%Z ->
  status_code r <> 401%Z ->
  query_ai net api_key prompt
  = ([Post (chat_request api_key prompt);
      StError (ApiError (status_code r) (text r))], JNull).
Proof.
  intros Hn Hr H401. unfold query_ai.
  rewrite (try_post_reply _ _ _ Hn) by now apply Z.eqb_neq.
  unfold raise_for_status.
  replace ((400 <=? status_code r) && (status_code r <? 600))%Z with true
    by (symmetry; apply andb_true_iff; split;
        [apply Z.leb_le | apply Z.ltb_lt]; lia).
  reflexivity.
Qed.

Lemma http_error_reported_witness :
  query_ai
    (fun _ => Ok {| status_code := 503; text := u "overloaded";
                    json_body := Raise JSONDecodeError |})
    (u "key") (u "Define osmosis")
  = ([Post (chat_request (u "key") (u "Define osmosis"));
      StError (ApiError 503 (u "overloaded"))], JNull).
Proof.
  apply (http_error_reported
           (fun _ => Ok {| status_code := 503; text := u "overloaded";
                           json_body := Raise JSONDecodeError |})
           (u "key") (u "Define osmosis")
           {| status_code := 503; text := u "overloaded";
              json_body := Raise JSONDecodeError |}).
  - reflexivity.
  - simpl. lia.
  - simpl. lia.
Defined.

Lemma content_of_raises body e :
  content_of body = Raise e -> e = KeyError \/ e = IndexError \/ e = TypeError.
Proof.
  unfold content_of, getitem_str, getitem_0.
  repeat (match goal with
          | |- context [match ?x with _ => _ end] => destruct x; simpl
          end);
    intros H; inversion H; auto.
Qed.

(** X2: an answer with a good status whose body is not the expected JSON
    (no "choices", an empty list, no "message" or no "content") is
    reported as a connection error, with the lookup error that occurred,
    and nothing is returned. *)
Theorem malformed_reply_reported
    (net : request -> res response) (api_key prompt : list N)
    (r : response) (body : json) (e : exn) :
  net (chat_request api_key prompt) = Ok r ->
  ~ (400 <= status_code r < 600)%Z ->
  json_body r = Ok body ->
  content_of body = Raise e ->
  query_ai net api_key prompt
  = ([Post (chat_request api_key prompt); StError (ConnectError e)], JNull)
  /\ (e = KeyError \/ e = IndexError \/ e = TypeError).
Proof.
  intros Hn Hr Hb Hc. pose proof (content_of_raises _ _ Hc) as He.
  split; [| exact He]. unfold query_ai.
  rewrite (try_post_reply _ _ _ Hn) by (apply Z.eqb_neq; lia).
  unfold raise_for_status.
  replace ((400 <=? status_code r) && (status_code r <? 600))%Z with false
    by (symmetry; apply andb_false_iff;
        destruct (Z.leb_spec 400 (status_code r)); [right | now left];
        apply Z.ltb_ge; lia).
  rewrite Hb. simpl. rewrite Hc.
  destruct He as [-> | [-> | ->]]; reflexivity.
Qed.

Lemma malformed_reply_reported_witness :
  query_ai
    (fun _ => Ok {| status_code := 200; text := u "{}";
                    json_body := Ok (JObj [(u "choices", JArr [])]) |})
    (u "key") (u "Define osmosis")
  = ([Post (chat_request (u "key") (u "Define osmosis"));
      StError (ConnectError IndexError)], JNull).
Proof.
  apply (malformed_reply_reported
           (fun _ => Ok {| status_code := 200; text := u "{}";
                           json_body := Ok (JObj [(u "choices", JArr [])]) |})
           (u "key") (u "Define osmosis")
           {| status_code := 200; text := u "{}";
              json_body := Ok (JObj [(u "choices", JArr [])]) |}
           (JObj [(u "choices", JArr [])]) IndexError).
  - reflexivity.
  - simpl. lia.
  - reflexivity.
  - reflexivity.
Defined.

(** X3: an answer with a good status and the expected JSON gives back the
    completion as it stands in the body, and shows no error. The body
    {"choices": [{"message": {"content": v}}]} carries [v] for every
    value [v]. *)
Theorem completion_returned
    (net : request -> res response) (api_key prompt : list N)
    (r : response) (body v : json) :
  net (chat_request api_key prompt) = Ok r ->
  ~ (400 <= status_code r < 600)%Z ->
  json_body r = Ok body ->
  content_of body = Ok v ->
  query_ai net api_key prompt = ([Post (chat_request api_key prompt)], v)
  /\ content_of
       (JObj [(u "choices",
               JArr [JObj [(u "message", JObj [(u "content", v)])]])])
     = Ok v.
Proof.
  intros Hn Hr Hb Hc. split; [| reflexivity]. unfold query_ai.
  rewrite (try_post_reply _ _ _ Hn) by (apply Z.eqb_neq; lia).
  unfold raise_for_status.
  replace ((400 <=? status_code r) && (status_code r <? 600))%Z with false
    by (symmetry; apply andb_false_iff;
        destruct (Z.leb_spec 400 (status_code r)); [right | now left];
        apply Z.ltb_ge; lia).
  rewrite Hb. simpl. now rewrite Hc.
Qed.

Lemma completion_returned_witness :
  query_ai
    (fun _ =>
       Ok {| status_code := 200; text := [];
             json_body :=
               Ok (JObj [(u "id", JInt 7);
                         (u "choices",
                          JArr [JObj [(u "message",
                                       JObj [(u "role", JStr (u "assistant"));
                                             (u "content", JStr (u "Osmosis is ..."))])]])]) |})
    (u "key") (u "Define osmosis")
  = ([Post (chat_request (u "key") (u "Define osmosis"))],
     JStr (u "Osmosis is ...")).
Proof.
  refine (proj1 (completion_returned _ (u "key") (u "Define osmosis")
                   {| status_code := 200; text := [];
                      json_body := Ok (JObj [(u "id", JInt 7);
                         (u "choices",
                          JArr [JObj [(u "message",
                                       JObj [(u "role", JStr (u "assistant"));
                                             (u "content", JStr (u "Osmosis is ..."))])]])]) |}
                   _ _ eq_refl _ eq_refl _)).
  - simpl. lia.
  - vm_compute. reflexivity.
Defined.

(** X4: whatever the endpoint does, one call sends one request and then
    either shows nothing more, or shows one error and returns [None]:
    a value other than [None] is never returned together with an
    error. *)
Theorem error_shown_means_nothing_returned
    (net : request -> res response) (api_key prompt : list N) :
  fst (query_ai net api_key prompt) = [Post (chat_request api_key prompt)]
  \/ exists m,
       query_ai net api_key prompt
       = ([Post (chat_request api_key prompt); StError m], JNull).
Proof.
  unfold query_ai.
  destruct (try_post net (chat_request api_key prompt)) as [v | | e];
    [now left | right; eauto |].
  right. destruct e; eauto.
Qed.

(** *** Requests of a run *)

Lemma requests_cons e l :
  requests (e :: l)
  = match e with
    | Core (Post req) => req :: requests l
    | _ => requests l
    end.
Proof. destruct e as [[] | | | | | | | | | |]; reflexivity. Qed.

Lemma requests_app l1 l2 : requests (l1 ++ l2) = requests l1 ++ requests l2.
Proof. unfold requests. apply omap_app. Qed.

Lemma posts_cons e l :
  posts (e :: l)
  = match e with
    | Post req => req :: posts l
    | _ => posts l
    end.
Proof. destruct e; reflexivity. Qed.

Lemma posts_app l1 l2 : posts (l1 ++ l2) = posts l1 ++ posts l2.
Proof. unfold posts. apply omap_app. Qed.

Lemma requests_core ev : requests (List.map Core ev) = posts ev.
Proof.
  induction ev as [| e ev IH]; [reflexivity |].
  simpl List.map. rewrite requests_cons, posts_cons, IH. now destruct e.
Qed.

Lemma query_ai_requests net api_key prompt :
  posts (fst (query_ai net api_key prompt)) = [chat_request api_key prompt].
Proof.
  destruct (query_ai_posts_once net api_key prompt) as (tail & -> & Ht).
  now rewrite posts_cons, Ht.
Qed.

(** *** The glossary helper *)

(** X5: an empty term sends nothing. Any other term, also one of blanks
    only, sends exactly one request with the glossary prompt; the run
    goes on afterwards, and the warning is shown exactly when the call
    returned nothing. *)
Theorem glossary_sends_one_request
    (net : request -> res response) (api_key term : list N) :
  glossary net api_key [] = ([], Done tt)
  /\ (term <> [] ->
      requests (fst (glossary net api_key term))
      = [chat_request api_key (glossary_prompt term)]
      /\ snd (glossary net api_key term) = Done tt
      /\ (In (PageWarning NoDefinition) (fst (glossary net api_key term)) <->
          json_truthy (snd (query_ai net api_key (glossary_prompt term)))
          = false)).
Proof.
  split; [reflexivity |]. intros Hne. unfold glossary.
  destruct term as [| c term]; [now destruct Hne |]. cbn [truthy].
  pose proof (query_ai_requests net api_key (glossary_prompt (c :: term))) as Hq.
  destruct (query_ai net api_key (glossary_prompt (c :: term))) as [ev v].
  cbn [fst snd] in *.
  assert (Hin : forall n, ~ In (PageWarning n) (List.map Core ev)).
  { intros n Hn. apply in_map_iff in Hn. destruct Hn as (x & Hx & _).
    discriminate. }
  destruct (json_truthy v); cbn [seq say fst snd];
    rewrite requests_app, requests_core, Hq.
  - repeat split; try discriminate.
    intros H. apply in_app_iff in H. destruct H as [H | [H | []]].
    + now apply Hin in H.
    + discriminate.
  - repeat split. intros _. apply in_app_iff. right. now left.
Qed.

Lemma glossary_sends_one_request_witness :
  requests (fst (glossary (fun _ => Raise (LibraryError (u "timeout")))
                          (u "key") (u " ")))
  = [chat_request (u "key") (glossary_prompt (u " "))].
Proof.
  apply (proj2 (glossary_sends_one_request
                  (fun _ => Raise (LibraryError (u "timeout")))
                  (u "key") (u " "))).
  discriminate.
Defined.

(** *** The experiment assistant *)

(** X6: a submitted form without a name or without a hypothesis shows the
    warning and stops the run: no request is sent and no report is
    written. With a template selected the name is the template's and is
    never empty. *)
Theorem incomplete_form_stops
    (net : request -> res response) (api_key stamp selected_exp : list N)
    (f : form) :
  (submit f = true ->
   fst (prefill selected_exp f) = []
   \/ hypo_area f (snd (prefill selected_exp f)) = [] ->
   experiment_assistant net api_key stamp selected_exp f
   = ([PageWarning NeedNameAndHypothesis], Stopped))
  /\ (forall t,
        selected_exp <> u "Custom Experiment" ->
        experiments !! selected_exp = Some t ->
        prefill selected_exp f = (selected_exp, hypothesis t)
        /\ selected_exp <> []).
Proof.
  split.
  - intros Hs Hempty. unfold experiment_assistant.
    destruct (prefill selected_exp f) as [exp_name default_hypo].
    cbn [fst snd] in Hempty. rewrite Hs.
    destruct Hempty as [-> | ->]; [reflexivity |].
    now rewrite orb_true_r.
  - intros t Hc Ht. split.
    + unfold prefill. rewrite bool_decide_eq_false_2 by assumption.
      cbn [negb]. now rewrite Ht.
    + intros ->. vm_compute in Ht. discriminate.
Qed.

Lemma incomplete_form_stops_witness :
  experiment_assistant (fun _ => Raise (LibraryError (u "unreachable")))
    (u "key") (u "20250101120000") (u "Lemon Battery")
    {| name_input := []; hypo_area := fun _ => [];
       materials := u "a lemon"; procedure := []; submit := true |}
  = ([PageWarning NeedNameAndHypothesis], Stopped).
Proof.
  apply (proj1 (incomplete_form_stops
                  (fun _ => Raise (LibraryError (u "unreachable")))
                  (u "key") (u "20250101120000") (u "Lemon Battery")
                  {| name_input := []; hypo_area := fun _ => [];
                     materials := u "a lemon"; procedure := [];
                     submit := true |})).
  - reflexivity.
  - right. reflexivity.
Defined.

(** X7: a submitted form with a name and a hypothesis sends exactly one
    request, the experiment prompt. When the call returned nothing,
    nothing is shown beyond the error of the call, and the run goes on.
    When it returned a guide, the guide is shown. The report and the
    download button follow, the file on disk named after the time stamp
    and the download after the experiment, when the guide is a text and
    neither it nor the name, the hypothesis, the materials and the
    procedure hold a character outside latin-1. With a guide that is
    no text, or with such a character in one of the five texts, the run
    fails after showing the guide: no report is written and there is no
    button. *)
Theorem guide_needs_an_answer
    (net : request -> res response) (api_key stamp selected_exp : list N)
    (f : form) :
  let exp_name := fst (prefill selected_exp f) in
  let hypo := hypo_area f (snd (prefill selected_exp f)) in
  let prompt := experiment_prompt exp_name hypo (materials f) (procedure f) in
  let sent := List.map Core (fst (query_ai net api_key prompt)) in
  let answer := snd (query_ai net api_key prompt) in
  let shown :=
    [ PageSuccess GuideGenerated; PageBalloons;
      Core (StMarkdown (u "### " ++ [0x1F9EA] ++ u " Experiment Guide"));
      GuideBox answer ] in
  let run := experiment_assistant net api_key stamp selected_exp f in
  submit f = true -> exp_name <> [] -> hypo <> [] ->
  requests (fst run) = [chat_request api_key prompt]
  /\ (json_truthy answer = false -> run = (sent, Done tt))
  /\ (forall guide,
        json_truthy answer = true -> answer = JStr guide ->
        forallb latin1 [exp_name; hypo; materials f; procedure f; guide] = true ->
        exists ops,
          generate_pdf_report stamp exp_name hypo answer
                              (materials f) (procedure f)
          = Ok (ops, u "experiment_guide_" ++ stamp ++ u ".pdf")
          /\ run
             = (sent ++ shown
                ++ [PdfReport ops;
                    DownloadButton (u "experiment_guide_" ++ stamp ++ u ".pdf")
                                   (exp_name ++ u "_guide.pdf")],
                Done tt))
  /\ (forall guide,
        json_truthy answer = true -> answer = JStr guide ->
        forallb latin1 [exp_name; hypo; materials f; procedure f; guide] = false ->
        run = (sent ++ shown, Failed UnicodeEncodeError))
  /\ (json_truthy answer = true -> (forall guide, answer <> JStr guide) ->
      run = (sent ++ shown, Failed AttributeError)).
Proof.
  intros exp_name hypo prompt sent answer shown run Hs Hn Hh.
  subst run shown answer sent. unfold experiment_assistant.
  destruct (prefill selected_exp f) as [name default_hypo] eqn:Hp.
  cbn [fst snd] in *. subst exp_name hypo. rewrite Hs.
  destruct name as [| c name]; [now destruct Hn |].
  destruct (hypo_area f default_hypo) as [| h hypo] eqn:Hy; [now destruct Hh |].
  cbn [truthy negb orb].
  pose proof (query_ai_requests net api_key prompt) as Hq. subst prompt.
  destruct (query_ai net api_key
              (experiment_prompt (c :: name) (h :: hypo) (materials f)
                                 (procedure f))) as [ev v].
  cbn [fst snd] in *.
  destruct (json_truthy v) eqn:Hv; cbn [seq say fst snd].
  - assert (Hgen :
      generate_pdf_report stamp (c :: name) (h :: hypo) v
                          (materials f) (procedure f)
      = match v with
        | JStr guide =>
            if forallb latin1
                 [c :: name; h :: hypo; materials f; procedure f; guide]
            then generate_pdf_report stamp (c :: name) (h :: hypo) v
                                     (materials f) (procedure f)
            else Raise UnicodeEncodeError
        | _ => Raise AttributeError
        end).
    { destruct v; try reflexivity.
      unfold generate_pdf_report, multi_cell_text, pdf_output. cbn [bind].
      now destruct (forallb latin1 _). }
    split; [| split; [| split; [| split]]].
    + destruct (generate_pdf_report stamp (c :: name) (h :: hypo) v
                  (materials f) (procedure f)) as [[ops file] | e];
        cbn [seq say fst snd]; rewrite !requests_app, requests_core, Hq;
        reflexivity.
    + discriminate.
    + intros guide _ -> Hl. rewrite Hgen, Hl.
      unfold generate_pdf_report, multi_cell_text, pdf_output. cbn [bind].
      rewrite Hl. cbn [bind]. eexists. split; [reflexivity |].
      reflexivity.
    + intros guide _ -> Hl. rewrite Hgen, Hl. now rewrite app_nil_r.
    + intros _ Hstr. rewrite Hgen.
      destruct v; try (now destruct (Hstr s)); now rewrite app_nil_r.
  - split; [| split; [| split; [| split]]]; try discriminate.
    + now rewrite requests_app, requests_core, Hq.
    + intros _. now rewrite app_nil_r.
Qed.

Lemma guide_needs_an_answer_witness :
  requests
    (fst (experiment_assistant
            (fun _ => Raise (LibraryError (u "timeout")))
            (u "key") (u "20250101120000") (u "Lemon Battery")
            {| name_input := []; hypo_area := fun h => h;
               materials := []; procedure := []; submit := true |}))
  = [chat_request (u "key")
       (experiment_prompt (u "Lemon Battery")
          (u "A lemon can produce electricity to power a small LED.") [] [])].
Proof.
  refine (proj1 (guide_needs_an_answer
                   (fun _ => Raise (LibraryError (u "timeout")))
                   (u "key") (u "20250101120000") (u "Lemon Battery")
                   {| name_input := []; hypo_area := fun h => h;
                      materials := []; procedure := []; submit := true |}
                   eq_refl _ _)).
  - vm_compute. discriminate.
  - vm_compute. discriminate.
Defined.

(** *** The evaluation block *)

Lemma strip_nil_truthy q : truthy (strip q) = true -> truthy q = true.
Proof. destruct q; [discriminate | reflexivity]. Qed.

Lemma followup_condition ask q :
  (ask || truthy q) && truthy (strip q) = truthy (strip q).
Proof.
  destruct (truthy (strip q)) eqn:E; [| apply andb_false_r].
  rewrite (strip_nil_truthy q E). now rewrite orb_true_r.
Qed.

(** X9: the button "Ask Question" decides nothing: with a report at hand and
    the analysis not requested, the follow-up request is sent exactly
    when the question has a character that is no white space, pressed
    or not. *)
Theorem ask_button_decides_nothing
    (net : request -> res response) (api_key : list N) (ui : clicks)
    (lab_text : list N) :
  truthy (strip lab_text) = true ->
  analyze_button ui = false ->
  ai_evaluation net api_key ui lab_text
  = ai_evaluation net api_key
      {| analyze_button := false; ask_button := negb (ask_button ui);
         user_question := user_question ui |} lab_text
  /\ posts (fst (ai_evaluation net api_key ui lab_text))
     = if truthy (strip (user_question ui))
       then [chat_request api_key (followup_prompt lab_text (user_question ui))]
       else [].
Proof.
  intros Ht Ha. unfold ai_evaluation. rewrite Ht, Ha. cbn [analyze_button
    ask_button user_question]. rewrite !followup_condition.
  split; [reflexivity |].
  destruct (truthy (strip (user_question ui))); [| reflexivity].
  pose proof (query_ai_requests net api_key
                (followup_prompt lab_text (user_question ui))) as Hq.
  destruct (query_ai net api_key (followup_prompt lab_text (user_question ui)))
    as [ev v].
  cbn [fst] in Hq.
  destruct (json_truthy v); cbn [io_bind emit fst app];
    rewrite ?posts_app, Hq; reflexivity.
Qed.

Lemma ask_button_decides_nothing_witness :
  posts (fst (ai_evaluation (fun _ => Raise (LibraryError (u "timeout")))
                (u "key")
                {| analyze_button := false; ask_button := false;
                   user_question := u "Why?" |}
                (u "Title: Osmosis")))
  = [chat_request (u "key") (followup_prompt (u "Title: Osmosis") (u "Why?"))].
Proof.
  refine (proj2 (ask_button_decides_nothing
                   (fun _ => Raise (LibraryError (u "timeout"))) (u "key")
                   {| analyze_button := false; ask_button := false;
                      user_question := u "Why?" |}
                   (u "Title: Osmosis") _ _)).
  - vm_compute. reflexivity.
  - reflexivity.
Defined.

(** X10: when the analysis call returns nothing (an error was shown) and a
    question is in the field, the same run goes on to send the follow-up
    request: two requests, the analysis prompt first. *)
Theorem failed_analysis_still_asks
    (net : request -> res response) (api_key : list N) (ui : clicks)
    (lab_text : list N) :
  truthy (strip lab_text) = true ->
  analyze_button ui = true ->
  truthy (strip (user_question ui)) = true ->
  json_truthy (snd (query_ai net api_key (full_prompt lab_text))) = false ->
  posts (fst (ai_evaluation net api_key ui lab_text))
  = [chat_request api_key (full_prompt lab_text);
     chat_request api_key (followup_prompt lab_text (user_question ui))]
  /\ snd (ai_evaluation net api_key ui lab_text) = Ok tt.
Proof.
  intros Ht Ha Hquest Hnone. unfold ai_evaluation.
  rewrite Ht, Ha, followup_condition, Hquest.
  pose proof (query_ai_requests net api_key (full_prompt lab_text)) as H1.
  pose proof (query_ai_requests net api_key
                (followup_prompt lab_text (user_question ui))) as H2.
  destruct (query_ai net api_key (full_prompt lab_text)) as [ev1 v1].
  destruct (query_ai net api_key (followup_prompt lab_text (user_question ui)))
    as [ev2 v2].
  cbn [fst snd] in *. unfold show_analysis. rewrite Hnone.
  destruct (json_truthy v2); cbn [io_bind emit fst snd app];
    rewrite ?app_nil_r, !posts_app, H1, H2; split; reflexivity.
Qed.

Lemma failed_analysis_still_asks_witness :
  posts (fst (ai_evaluation
                (fun _ => Ok {| status_code := 401; text := [];
                                json_body := Raise JSONDecodeError |})
                (u "bad-key")
                {| analyze_button := true; ask_button := false;
                   user_question := u "Why?" |}
                (u "Title: Osmosis")))
  = [chat_request (u "bad-key") (full_prompt (u "Title: Osmosis"));
     chat_request (u "bad-key")
       (followup_prompt (u "Title: Osmosis") (u "Why?"))].
Proof.
  refine (proj1 (failed_analysis_still_asks
                   (fun _ => Ok {| status_code := 401; text := [];
                                   json_body := Raise JSONDecodeError |})
                   (u "bad-key")
                   {| analyze_button := true; ask_button := false;
                      user_question := u "Why?" |}
                   (u "Title: Osmosis") _ _ _ _)).
  - vm_compute. reflexivity.
  - reflexivity.
  - vm_compute. reflexivity.
  - reflexivity.
Defined.

(** X11: a completion that is not a string (the endpoint put a number, a list
    or an object under "content") passes [query_ai] as it is; the
    analysis then announces success and raises [TypeError] at the score
    search, and the follow-up question of the same run is not sent. *)
Theorem non_text_completion_raises
    (net : request -> res response) (api_key : list N) (ui : clicks)
    (lab_text : list N) :
  let answer := snd (query_ai net api_key (full_prompt lab_text)) in
  truthy (strip lab_text) = true ->
  analyze_button ui = true ->
  json_truthy answer = true ->
  (forall s, answer <> JStr s) ->
  ai_evaluation net api_key ui lab_text
  = (fst (query_ai net api_key (full_prompt lab_text))
     ++ [StSuccess AnalysisComplete; StBalloons],
     Raise TypeError).
Proof.
  intros answer Ht Ha Htruthy Hstr. subst answer. unfold ai_evaluation.
  rewrite Ht, Ha.
  destruct (query_ai net api_key (full_prompt lab_text)) as [ev v].
  cbn [fst snd] in *. unfold show_analysis. rewrite Htruthy.
  destruct v; try (now destruct (Hstr s)); cbn [io_bind emit lift fst snd app];
    now rewrite ?app_nil_r.
Qed.

Lemma non_text_completion_raises_witness :
  snd (ai_evaluation
         (fun _ =>
            Ok {| status_code := 200; text := [];
                  json_body :=
                    Ok (JObj [(u "choices",
                               JArr [JObj [(u "message",
                                            JObj [(u "content", JInt 7)])]])]) |})
         (u "key")
         {| analyze_button := true; ask_button := true;
            user_question := u "Why?" |}
         (u "Title: Osmosis"))
  = Raise TypeError.
Proof.
  rewrite (non_text_completion_raises
             (fun _ =>
                Ok {| status_code := 200; text := [];
                      json_body :=
                        Ok (JObj [(u "choices",
                                   JArr [JObj [(u "message",
                                                JObj [(u "content", JInt 7)])]])]) |})
             (u "key")
             {| analyze_button := true; ask_button := true;
                user_question := u "Why?" |}
             (u "Title: Osmosis")).
  - reflexivity.
  - vm_compute. reflexivity.
  - reflexivity.
  - reflexivity.
  - intros s. vm_compute. discriminate.
Defined.

(** *** The section scan *)

Lemma scan_app l1 l2 st :
  scan (l1 ++ l2) st = (let! st' := scan l1 st in scan l2 st').
Proof.
  revert st. induction l1 as [| l l1 IH]; intros st; simpl; [reflexivity |].
  destruct (scan_line st l) as [st' | e]; simpl; [apply IH | reflexivity].
Qed.

Lemma startswith_app p b : startswith p (p ++ b) = true.
Proof. induction p as [| c p IH]; simpl; [reflexivity |]. now rewrite N.eqb_refl. Qed.

Lemma contains_middle p a b : contains p (a ++ p ++ b) = true.
Proof.
  induction a as [| c a IH].
  - simpl app. destruct (p ++ b) eqn:E; simpl; rewrite <- E, startswith_app;
      reflexivity.
  - simpl. rewrite IH. apply orb_true_r.
Qed.

(** X12: what else a heading line says does not count: two lines that open
    the same section give the same scan, so text written after the
    marker on the heading line is lost to the sections. The marker is
    found anywhere in the line, and "### Missing Sections:" wins over
    the other two markers on the same line. *)
Theorem heading_line_text_is_dropped
    (before after : list (list N)) (h h' name : list N) (st : scan_state) :
  (heading h = Some name -> heading h' = Some name ->
   scan (before ++ h :: after) st = scan (before ++ h' :: after) st)
  /\ (forall a b, heading (a ++ u "### Missing Sections:" ++ b) = Some K_missing).
Proof.
  split.
  - intros Hh Hh'. rewrite !scan_app.
    destruct (scan before st) as [st' | e]; [| reflexivity].
    simpl. now rewrite (scan_line_heading _ _ _ Hh), (scan_line_heading _ _ _ Hh').
  - intros a b. unfold heading. now rewrite contains_middle.
Qed.

Lemma heading_line_text_is_dropped_witness :
  scan [u "### Missing Sections: References, Conclusion"; u "and more"]
       scan_start
  = scan [u "### Missing Sections:"; u "and more"] scan_start.
Proof.
  apply (proj1 (heading_line_text_is_dropped
                  [] [u "and more"]
                  (u "### Missing Sections: References, Conclusion")
                  (u "### Missing Sections:") K_missing scan_start)).
  - vm_compute. reflexivity.
  - vm_compute. reflexivity.
Defined.

Lemma lstrip_nil s : lstrip s = [] -> Forall (fun c => isspace c = true) s.
Proof.
  induction s as [| c s IH]; simpl; [constructor |].
  destruct (isspace c) eqn:E; [| discriminate]. intros H. constructor; auto.
Qed.

Lemma lstrip_head s c t : lstrip s = c :: t -> isspace c = false.
Proof.
  induction s as [| a s IH]; simpl; [discriminate |].
  destruct (isspace a) eqn:E; [exact IH |]. intros H. now injection H as <- _.
Qed.

Lemma strip_nil s : strip s = [] -> Forall (fun c => isspace c = true) s.
Proof.
  unfold strip, rstrip. intros H.
  assert (H1 : lstrip (rev (lstrip s)) = []).
  { destruct (lstrip (rev (lstrip s))) as [| c t]; [reflexivity |].
    simpl in H. now destruct (rev t). }
  apply lstrip_nil in H1.
  destruct (lstrip s) as [| c t] eqn:E; [now apply lstrip_nil |].
  apply lstrip_head in E.
  rewrite List.Forall_forall in H1. rewrite (H1 c) in E; [discriminate |].
  apply -> in_rev. now left.
Qed.

Lemma startswith_head c p s : startswith (c :: p) s = true -> In c s.
Proof.
  destruct s as [| a s]; simpl; [discriminate |].
  intros H. apply andb_true_iff in H. destruct H as [H _].
  apply N.eqb_eq in H. now left.
Qed.

Lemma contains_head c p s : contains (c :: p) s = true -> In c s.
Proof.
  induction s as [| a s IH]; [discriminate |].
  change (contains (c :: p) (a :: s))
    with (startswith (c :: p) (a :: s) || contains (c :: p) s).
  intros H. apply orb_true_iff in H. destruct H as [H | H].
  - now apply startswith_head with p.
  - right. now apply IH.
Qed.

Lemma blank_is_plain line : nonblank line = false -> heading line = None.
Proof.
  unfold nonblank. intros H.
  assert (Hs : Forall (fun c => isspace c = true) line).
  { apply strip_nil. now destruct (strip line). }
  assert (Hno : forall p, contains (0x23 :: p) line = false).
  { intros p. destruct (contains (0x23 :: p) line) eqn:E; [| reflexivity].
    apply contains_head in E. rewrite List.Forall_forall in Hs.
    apply Hs in E. discriminate. }
  unfold heading.
  change (u "### Missing Sections:") with (0x23 :: u "## Missing Sections:").
  change (u "### Improvement Tips:") with (0x23 :: u "## Improvement Tips:").
  change (u "### Detailed Feedback:") with (0x23 :: u "## Detailed Feedback:").
  now rewrite !Hno.
Qed.

(** X13: blank lines never matter to the scan: taking the lines of white
    space out of a response changes neither the cursor nor any section. *)
Theorem blank_lines_do_not_matter (lines : list (list N)) (st : scan_state) :
  scan (List.filter nonblank lines) st = scan lines st.
Proof.
  revert st. induction lines as [| line lines IH]; intros st; [reflexivity |].
  simpl List.filter. destruct (nonblank line) eqn:E.
  - simpl. destruct (scan_line st line); simpl; [apply IH | reflexivity].
  - simpl scan. rewrite (step_blank st line (blank_is_plain line E) E). simpl.
    apply IH.
Qed.

(** *** The upload *)

Lemma read_pages_failure before e after acc :
  read_pages (List.map Ok before ++ Raise e :: after) acc
  = (acc ++ concat (List.map (fun t => t ++ [NL]) before), Some e).
Proof.
  revert acc. induction before as [| t before IH]; intros acc; simpl.
  - now rewrite app_nil_r.
  - rewrite IH. now rewrite <- !app_assoc.
Qed.

(** X14: when the text extraction of a page raises, the error is shown but
    the text of the pages before it is kept: it is put in the text area
    and goes on to the evaluation block like a complete report. *)
Theorem failed_page_keeps_earlier_text
    (first : list N) (before : list (list N)) (e : exn) (after : list page)
    (img : res ocr) (edited : list N -> list N) :
  let kept := concat (List.map (fun t => t ++ [NL]) (first :: before)) in
  extract_pdf (Ok (List.map Ok (first :: before) ++ Raise e :: after))
  = ([StError (PdfReadError e)], kept)
  /\ read_upload
       (Some {| file_ext := u "pdf";
                as_pdf := Ok (List.map Ok (first :: before) ++ Raise e :: after);
                as_image := img |})
       edited
     = ([Core (StError (PdfReadError e)); TextArea kept], Done (edited kept)).
Proof.
  intros kept.
  assert (H : extract_pdf (Ok (List.map Ok (first :: before) ++ Raise e :: after))
              = ([StError (PdfReadError e)], kept)).
  { unfold extract_pdf. now rewrite read_pages_failure. }
  split; [exact H |]. unfold read_upload. cbn [file_ext as_pdf].
  rewrite bool_decide_eq_true_2 by reflexivity. rewrite H.
  assert (Hk : truthy kept = true).
  { subst kept. simpl. now destruct first. }
  cbn [seq List.map app]. now rewrite Hk.
Qed.

Lemma spaces_pages texts :
  Forall (Forall (fun c => isspace c = true)) texts ->
  Forall (fun c => isspace c = true)
         (concat (List.map (fun t => t ++ [NL]) texts)).
Proof.
  induction 1 as [| t texts Ht _ IH]; simpl; [constructor |].
  apply Forall_app. split; [| exact IH].
  apply Forall_app. split; [exact Ht | now repeat constructor].
Qed.

(** X15: a PDF whose pages hold white space only (or nothing, or that has no
    page) leads to no request when the student leaves the text as it
    was extracted: the extraction succeeds and the run shows the sample
    report. *)
Theorem blank_pdf_sends_nothing
    (net : request -> res response) (api_key : list N)
    (texts : list (list N)) (img : res ocr) (edited : list N -> list N)
    (ui : clicks) :
  let extracted := concat (List.map (fun t => t ++ [NL]) texts) in
  let run := lab_report_analyzer net api_key
               (Some {| file_ext := u "pdf"; as_pdf := Ok (List.map Ok texts);
                        as_image := img |})
               edited ui in
  Forall (Forall (fun c => isspace c = true)) texts ->
  edited extracted = extracted ->
  requests (fst run) = []
  /\ snd run = Done tt
  /\ In (Core SampleReport) (fst run)
  /\ In (Core (StSuccess PdfExtracted)) (fst run).
Proof.
  intros extracted run Hsp Hed. subst run.
  pose proof (spaces_pages texts Hsp) as Hall.
  unfold lab_report_analyzer, read_upload. cbn [file_ext as_pdf].
  rewrite bool_decide_eq_true_2 by reflexivity.
  rewrite extract_pdf_texts.
  change (concat (List.map (fun t => t ++ [NL]) texts)) with extracted in Hall.
  change (concat (List.map (fun t => t ++ [NL]) texts)) with extracted.
  clearbody extracted.
  assert (He : ai_evaluation net api_key ui extracted = ([SampleReport], Ok tt)).
  { unfold ai_evaluation. now rewrite (PyFacts.strip_spaces extracted Hall). }
  cbn [seq List.map app].
  destruct (truthy extracted) eqn:Ht; cbn [seq app];
    rewrite ?Hed; unfold core; rewrite He; cbn [fst snd List.map app];
    repeat split; try reflexivity; simpl; auto.
Qed.

Lemma blank_pdf_sends_nothing_witness :
  requests
    (fst (lab_report_analyzer
            (fun _ => Raise (LibraryError (u "unreachable"))) (u "key")
            (Some {| file_ext := u "pdf";
                     as_pdf := Ok (List.map Ok [u "  "; []]);
                     as_image := Raise (LibraryError (u "no image")) |})
            (fun t => t)
            {| analyze_button := true; ask_button := true;
               user_question := u "Why?" |}))
  = [].
Proof.
  refine (proj1 (blank_pdf_sends_nothing
                   (fun _ => Raise (LibraryError (u "unreachable"))) (u "key")
                   [u "  "; []] (Raise (LibraryError (u "no image")))
                   (fun t => t)
                   {| analyze_button := true; ask_button := true;
                      user_question := u "Why?" |} _ _)).
  - repeat constructor.
  - reflexivity.
Defined.

(** X16: for an image, a missing Tesseract or a failing recognition shows
    its error and stops the run there, so not even the sample report is
    shown; an image that cannot be opened shows its error and the run
    goes on with no text, to the sample report. In none of the three
    cases is a request sent. *)
Theorem image_failures
    (net : request -> res response) (api_key : list N) (file : upload)
    (edited : list N -> list N) (ui : clicks) :
  file_ext file <> u "pdf" ->
  (as_image file = Ok TesseractNotFound ->
   lab_report_analyzer net api_key (Some file) edited ui
   = ([ShowImage; PageError TesseractMissing], Stopped))
  /\ (forall e, as_image file = Ok (OcrRaises e) ->
        lab_report_analyzer net api_key (Some file) edited ui
        = ([ShowImage; PageError (OcrFailed e)], Stopped))
  /\ (forall e, as_image file = Raise e ->
        lab_report_analyzer net api_key (Some file) edited ui
        = ([PageError (ImageFailed e); Core SampleReport], Done tt)).
Proof.
  intros Hext. unfold lab_report_analyzer, read_upload.
  rewrite bool_decide_eq_false_2 by assumption.
  split; [| split].
  - intros ->. reflexivity.
  - intros e ->. reflexivity.
  - intros e ->. reflexivity.
Qed.

Lemma image_failures_witness :
  lab_report_analyzer (fun _ => Raise (LibraryError (u "unreachable")))
    (u "key")
    (Some {| file_ext := u "png"; as_pdf := Raise (LibraryError (u "no pdf"));
             as_image := Ok TesseractNotFound |})
    (fun t => t)
    {| analyze_button := true; ask_button := true; user_question := u "Why?" |}
  = ([ShowImage; PageError TesseractMissing], Stopped).
Proof.
  refine (proj1 (image_failures
                   (fun _ => Raise (LibraryError (u "unreachable"))) (u "key")
                   {| file_ext := u "png";
                      as_pdf := Raise (LibraryError (u "no pdf"));
                      as_image := Ok TesseractNotFound |}
                   (fun t => t)
                   {| analyze_button := true; ask_button := true;
                      user_question := u "Why?" |} _) eq_refl).
  vm_compute. discriminate.
Defined.

(** *** The whole run *)

Lemma fc_nil key n : from_client key [] n.
Proof. split; [constructor | simpl; lia]. Qed.

Lemma fc_one key prompt n : from_client key [chat_request key prompt] (S n).
Proof. split; [repeat constructor; eauto | simpl; lia]. Qed.

Lemma fc_app key l1 l2 n1 n2 :
  from_client key l1 n1 -> from_client key l2 n2 ->
  from_client key (l1 ++ l2) (n1 + n2).
Proof.
  intros [H1 L1] [H2 L2]. split.
  - apply Forall_app. now split.
  - rewrite length_app. lia.
Qed.

Lemma fc_weaken key l n m : (n <= m)%nat -> from_client key l n -> from_client key l m.
Proof. intros Hle [H L]. split; [exact H | lia]. Qed.

Lemma show_sections_quiet secs raw : posts (fst (show_sections secs raw)) = [].
Proof.
  unfold show_sections, getitem.
  repeat (match goal with
          | |- context [secs !! ?k] => destruct (secs !! k)
          | |- context [filled ?v] => destruct (filled v)
          end; cbn [lift io_bind emit fst app]);
    reflexivity.
Qed.

Lemma posts_bind {A B} (m : io A) (k : A -> io B) :
  posts (fst m) = [] -> (forall a, posts (fst (k a)) = []) ->
  posts (fst (io_bind m k)) = [].
Proof.
  destruct m as [ev [a | e]]; cbn [io_bind fst]; intros Hm Hk; [| exact Hm].
  specialize (Hk a). destruct (k a) as [ev' r]. cbn [fst] in *.
  now rewrite posts_app, Hm, Hk.
Qed.

Lemma score_card_quiet n : posts (fst (score_card n)) = [].
Proof.
  unfold score_card.
  apply posts_bind; [reflexivity |]. intros _. cbv zeta.
  apply posts_bind; [reflexivity |]. intros value.
  apply posts_bind; [reflexivity |]. intros _. reflexivity.
Qed.

Lemma show_analysis_quiet v : posts (fst (show_analysis v)) = [].
Proof.
  unfold show_analysis. destruct (json_truthy v); [| reflexivity].
  destruct v; try reflexivity.
  apply posts_bind; [reflexivity |]. intros _.
  apply posts_bind; [reflexivity |]. intros score.
  apply posts_bind; [destruct score; [apply score_card_quiet | reflexivity] |].
  intros _. unfold analysis_results.
  apply posts_bind; [reflexivity |]. intros _.
  apply posts_bind; [reflexivity |]. intros secs.
  apply show_sections_quiet.
Qed.

Lemma ai_evaluation_requests net key ui lab_text :
  from_client key (posts (fst (ai_evaluation net key ui lab_text))) 2.
Proof.
  unfold ai_evaluation. destruct (truthy (strip lab_text)); [| apply fc_nil].
  rewrite followup_condition.
  assert (H1 : exists ev r,
            (if analyze_button ui
             then let '(ev, result) := query_ai net key (full_prompt lab_text) in
                  io_bind (emit ev) (fun _ => show_analysis result)
             else emit []) = (ev, r)
            /\ from_client key (posts ev) 1).
  { destruct (analyze_button ui).
    - pose proof (query_ai_requests net key (full_prompt lab_text)) as Hq.
      pose proof (show_analysis_quiet
                    (snd (query_ai net key (full_prompt lab_text)))) as Hs.
      destruct (query_ai net key (full_prompt lab_text)) as [ev v].
      cbn [fst snd] in *. destruct (show_analysis v) as [ev' r'].
      cbn [io_bind emit fst] in *. eexists. eexists. split; [reflexivity |].
      rewrite posts_app, Hq, Hs. apply fc_one.
    - eexists. eexists. split; [reflexivity | apply fc_nil]. }
  destruct H1 as (ev1 & r1 & -> & F1).
  destruct r1 as [[] | e]; cbn [io_bind fst]; [| exact (fc_weaken _ _ 1 2 ltac:(lia) F1)].
  destruct (truthy (strip (user_question ui))).
  - pose proof (query_ai_requests net key
                  (followup_prompt lab_text (user_question ui))) as Hq.
    destruct (query_ai net key (followup_prompt lab_text (user_question ui)))
      as [ev2 v2].
    cbn [fst] in Hq.
    destruct (json_truthy v2); cbn [io_bind emit fst app];
      rewrite ?app_nil_r, !posts_app, ?Hq;
      apply (fc_app key (posts ev1) _ 1 1 F1);
      rewrite ?posts_app, ?Hq; apply fc_one.
  - cbn [emit]. rewrite app_nil_r. exact (fc_weaken _ _ 1 2 ltac:(lia) F1).
Qed.

Lemma seq_events {A B} (m : script A) (k : A -> script B) :
  fst (seq m k)
  = fst m ++ match snd m with
             | Done a => fst (k a)
             | _ => []
             end.
Proof.
  destruct m as [ev [a | | e]]; simpl.
  - now destruct (k a).
  - now rewrite app_nil_r.
  - now rewrite app_nil_r.
Qed.

Lemma glossary_requests net key term :
  from_client key (requests (fst (glossary net key term))) 1.
Proof.
  unfold glossary. destruct (truthy term); [| apply fc_nil].
  pose proof (query_ai_requests net key (glossary_prompt term)) as Hq.
  destruct (query_ai net key (glossary_prompt term)) as [ev v]. cbn [fst] in Hq.
  destruct (json_truthy v); cbn [seq say fst];
    rewrite requests_app, requests_core, Hq; apply fc_one.
Qed.

Lemma experiment_sends net key stamp sel f :
  requests (fst (experiment_assistant net key stamp sel f)) = []
  \/ exists name hypo,
       requests (fst (experiment_assistant net key stamp sel f))
       = [chat_request key
            (experiment_prompt name hypo (materials f) (procedure f))].
Proof.
  unfold experiment_assistant.
  destruct (prefill sel f) as [name default_hypo].
  destruct (submit f); [| now left].
  destruct (negb (truthy name) || negb (truthy (hypo_area f default_hypo)));
    [now left |].
  right. exists name, (hypo_area f default_hypo).
  match goal with
  | |- context [query_ai net key ?p] =>
      pose proof (query_ai_requests net key p) as Hq;
      destruct (query_ai net key p) as [ev v]
  end.
  cbn [fst] in Hq.
  destruct (json_truthy v); cbn [seq say fst].
  - destruct (generate_pdf_report stamp name (hypo_area f default_hypo) v
                (materials f) (procedure f)) as [[ops file] | e];
      cbn [seq say fst]; rewrite !requests_app, requests_core, Hq; reflexivity.
  - now rewrite requests_app, requests_core, Hq.
Qed.

Lemma experiment_requests net key stamp sel f :
  from_client key (requests (fst (experiment_assistant net key stamp sel f))) 1.
Proof.
  destruct (experiment_sends net key stamp sel f) as [-> | (n & h & ->)];
    [apply fc_nil | apply fc_one].
Qed.

Lemma read_upload_quiet uploaded edited :
  requests (fst (read_upload uploaded edited)) = [].
Proof.
  unfold read_upload. destruct uploaded as [file |]; [| reflexivity].
  rewrite seq_events, requests_app.
  assert (H : forall A (x y : script A) (b : bool),
            requests (fst x) = [] -> requests (fst y) = [] ->
            requests (fst (if b then x else y)) = [])
    by (intros A x y []; auto).
  rewrite H.
  - destruct (snd _) as [t | |]; try reflexivity. now destruct (truthy t).
  - unfold extract_pdf. destruct (as_pdf file) as [pages | e]; [| reflexivity].
    destruct (read_pages pages []) as [t [e |]]; reflexivity.
  - unfold extract_image.
    destruct (as_image file) as [[t | | e] | e]; reflexivity.
Qed.

Lemma analyzer_requests net key uploaded edited ui :
  from_client key
    (requests (fst (lab_report_analyzer net key uploaded edited ui))) 2.
Proof.
  unfold lab_report_analyzer.
  rewrite seq_events, requests_app, read_upload_quiet.
  destruct (snd (read_upload uploaded edited)) as [t | |]; try apply fc_nil.
  unfold core. cbn [fst app]. rewrite requests_core.
  apply ai_evaluation_requests.
Qed.

(** X17: without a key in the environment (none, or an empty one) the run
    shows the configuration error and stops: nothing else is shown and
    nothing is sent. With a key, every request of a run is built by the
    client with that key (same endpoint, model and header), and a run
    sends at most three of them, at most two in the experiment mode. *)
Theorem requests_of_a_run (net : request -> res response) (i : inputs) :
  (OPENROUTER_API_KEY i = None \/ OPENROUTER_API_KEY i = Some [] ->
   main net i = ([PageError ApiKeyNotConfigured], Stopped))
  /\ (forall key, OPENROUTER_API_KEY i = Some key ->
        from_client key (requests (fst (main net i))) 3)
  /\ (forall key, OPENROUTER_API_KEY i = Some key ->
        app_mode i = [0x1F9EA] ++ u " Experiment Assistant" ->
        from_client key (requests (fst (main net i))) 2).
Proof.
  unfold main. split; [| split].
  - intros [-> | ->]; reflexivity.
  - intros key ->. destruct key as [| c key]; [apply fc_nil |].
    rewrite seq_events, requests_app.
    apply (fc_app _ _ _ 1 2); [apply glossary_requests |].
    destruct (snd (glossary net (c :: key) (term i))); try apply fc_nil.
    case_bool_decide.
    + apply fc_weaken with 1%nat; [lia | apply experiment_requests].
    + apply analyzer_requests.
  - intros key -> Hmode. destruct key as [| c key]; [apply fc_nil |].
    rewrite seq_events, requests_app.
    apply (fc_app _ _ _ 1 1); [apply glossary_requests |].
    destruct (snd (glossary net (c :: key) (term i))); try apply fc_nil.
    rewrite bool_decide_eq_true_2 by assumption. apply experiment_requests.
Qed.

Lemma requests_of_a_run_witness :
  main (fun _ => Raise (LibraryError (u "unreachable")))
    {| OPENROUTER_API_KEY := Some [];
       app_mode := u "Lab Report Analyzer";
       selected_exp := u "Custom Experiment";
       term := u "osmosis";
       stamp := u "20250101120000";
       experiment_form :=
         {| name_input := []; hypo_area := fun h => h; materials := [];
            procedure := []; submit := false |};
       uploaded_file := None;
       edited := fun t => t;
       analyzer_clicks :=
         {| analyze_button := true; ask_button := true;
            user_question := u "Why?" |} |}
  = ([PageError ApiKeyNotConfigured], Stopped).
Proof.
  apply (proj1 (requests_of_a_run
                  (fun _ => Raise (LibraryError (u "unreachable"))) _)).
  right. reflexivity.
Defined.

(** *** What the sections hold *)

Lemma step_sublist st line pre :
  wf st ->
  (forall n l, sections st !! n = Some (Some l) -> l `sublist_of` pre) ->
  forall n l, sections (step st line) !! n = Some (Some l) ->
              l `sublist_of` pre ++ [line].
Proof.
  intros Hwf Hinv n l. unfold step.
  destruct (heading line) as [n0 |] eqn:Hh.
  - rewrite (scan_line_heading _ _ _ Hh). simpl. rewrite lookup_insert.
    case_decide.
    + intros Hx. injection Hx as <-. apply sublist_nil_l.
    + intros Hx. apply sublist_inserts_r. now apply (Hinv n).
  - destruct (nonblank line) eqn:Hb.
    + destruct (current_section st) as [c |] eqn:Hc.
      * pose proof Hwf as (H1 & _ & _).
        destruct (H1 c Hc) as (Hk & l0 & Hl0).
        rewrite (step_append _ _ _ _ Hh Hc Hk Hb Hl0). simpl.
        rewrite lookup_insert. case_decide.
        -- intros Hx. injection Hx as <-.
           apply sublist_app; [now apply (Hinv c) | reflexivity].
        -- intros Hx. apply sublist_inserts_r. now apply (Hinv n).
      * rewrite (step_no_cursor _ _ Hh Hc).
        intros Hx. apply sublist_inserts_r. now apply (Hinv n).
    + rewrite (step_blank _ _ Hh Hb).
      intros Hx. apply sublist_inserts_r. now apply (Hinv n).
Qed.

Lemma steps_sublist lines st pre :
  wf st ->
  (forall n l, sections st !! n = Some (Some l) -> l `sublist_of` pre) ->
  forall n l, sections (fold_left step lines st) !! n = Some (Some l) ->
              l `sublist_of` pre ++ lines.
Proof.
  revert st pre. induction lines as [| line lines IH]; intros st pre Hwf Hinv.
  - simpl. intros n l. rewrite app_nil_r. apply Hinv.
  - simpl fold_left. intros n l Hl.
    change (pre ++ line :: lines) with (pre ++ [line] ++ lines).
    rewrite app_assoc. apply (IH (step st line) (pre ++ [line])) with n.
    + now apply scan_line_ok.
    + now apply step_sublist.
    + exact Hl.
Qed.

(** X18: the sections hold lines of the response and nothing else: every
    section list is made of lines of the response, unchanged and in the
    order of the response. *)
Theorem section_lines_come_from_response (raw : list N) :
  exists secs,
    split_sections raw = Ok secs
    /\ forall name l, secs !! name = Some (Some l) ->
                      l `sublist_of` split_nl raw.
Proof.
  destruct (split_sections_ok raw) as (st & Hscan & _ & Hsec).
  exists (sections st). split; [exact Hsec |].
  rewrite scan_ok in Hscan by apply wf_start. injection Hscan as <-.
  intros name l Hl.
  apply (steps_sublist (split_nl raw) scan_start [] wf_start) with name;
    [| exact Hl].
  intros n l0 H0. destruct wf_start as (_ & _ & _).
  revert H0. unfold scan_start. simpl. rewrite !lookup_insert.
  repeat case_decide; try discriminate;
    try (rewrite lookup_empty; discriminate).
Qed.

Lemma section_lines_come_from_response_witness :
  exists secs,
    split_sections (join_nl [u "### Improvement Tips:"; u "Add units"; []])
    = Ok secs
    /\ [u "Add units"]
       `sublist_of` split_nl (join_nl [u "### Improvement Tips:"; u "Add units"; []]).
Proof.
  destruct (section_lines_come_from_response
              (join_nl [u "### Improvement Tips:"; u "Add units"; []]))
    as (secs & Hs & Hsub).
  exists secs. split; [exact Hs |]. apply (Hsub K_tips).
  vm_compute in Hs. injection Hs as <-. vm_compute. reflexivity.
Defined.

(** X19: a response that is the Detailed Feedback heading followed by lines
    that are neither blank nor headings is shown back as it came: the
    feedback on display is those lines joined by newlines, no box is
    shown for the two other sections, and the expander holds the whole
    response. *)
Theorem feedback_shown_verbatim (h : list N) (feedback : list (list N)) :
  heading h = Some K_feedback ->
  Forall one_line (h :: feedback) ->
  Forall plain feedback ->
  Forall (fun l => nonblank l = true) feedback ->
  feedback <> [] ->
  analysis_results (join_nl (h :: feedback))
  = ([ StMarkdown (u "## " ++ [0x1F4DD] ++ u " Analysis Results");
       StMarkdown (u "### " ++ [0x1F4CB] ++ u " Detailed Feedback");
       StWrite (join_nl feedback);
       Expander (u "View Full AI Analysis")
                [StMarkdown (join_nl (h :: feedback))] ],
     Ok tt).
Proof.
  intros Hh Hone Hplain Hnb Hne.
  destruct (split_sections_ok (join_nl (h :: feedback)))
    as (st & Hscan & Hwf & Hsec).
  rewrite (PyFacts.split_join (h :: feedback)) in Hscan
    by (assumption || discriminate).
  assert (Hother : forall n, n <> K_feedback ->
            Forall (fun l => heading l <> Some n) (h :: feedback)).
  { intros n Hn. constructor; [rewrite Hh; congruence |].
    eapply Forall_impl; [exact Hplain |]. intros l Hl. unfold plain in Hl.
    congruence. }
  rewrite scan_ok in Hscan by apply wf_start.
  assert (Hst : st = fold_left step (h :: feedback) scan_start) by congruence.
  clear Hscan.
  assert (Hm : sections st !! K_missing = Some None).
  { rewrite Hst, (steps_frame K_missing (h :: feedback) scan_start);
      [reflexivity | apply wf_start | discriminate | now apply Hother]. }
  assert (Ht : sections st !! K_tips = Some None).
  { rewrite Hst, (steps_frame K_tips (h :: feedback) scan_start);
      [reflexivity | apply wf_start | discriminate | now apply Hother]. }
  assert (Hf : sections st !! K_feedback = Some (Some feedback)).
  { destruct (section_after_heading K_feedback [] h feedback Hh)
      as (st' & H1 & _ & H2).
    - eapply Forall_impl; [exact Hplain |]. intros l Hl. unfold plain in Hl.
      congruence.
    - change ([] ++ h :: feedback) with (h :: feedback) in H1.
      rewrite scan_ok in H1 by apply wf_start.
      assert (st' = st) by congruence. subst st'. rewrite H2.
      unfold body. rewrite until_heading_plain by assumption.
      do 2 f_equal. clear -Hnb.
      induction Hnb as [| l ls Hl _ IH]; simpl; [reflexivity |].
      now rewrite Hl, IH. }
  unfold analysis_results. rewrite Hsec. cbn [io_bind emit lift].
  unfold show_sections, getitem. rewrite Hm, Ht, Hf.
  destruct feedback as [| l ls]; [now destruct Hne |]. reflexivity.
Qed.

Lemma feedback_shown_verbatim_witness :
  fst (analysis_results
         (join_nl [u "### Detailed Feedback:"; u "Clear method."; u "Add data."]))
  = [ StMarkdown (u "## " ++ [0x1F4DD] ++ u " Analysis Results");
      StMarkdown (u "### " ++ [0x1F4CB] ++ u " Detailed Feedback");
      StWrite (join_nl [u "Clear method."; u "Add data."]);
      Expander (u "View Full AI Analysis")
        [StMarkdown (join_nl [u "### Detailed Feedback:"; u "Clear method.";
                              u "Add data."])] ].
Proof.
  rewrite (feedback_shown_verbatim (u "### Detailed Feedback:")
             [u "Clear method."; u "Add data."]).
  - reflexivity.
  - vm_compute. reflexivity.
  - repeat constructor; vm_compute; intros H;
      repeat (destruct H as [H | H]; [discriminate H |]); destruct H.
  - repeat constructor.
  - repeat constructor.
  - discriminate.
Defined.

End More.

(** ** One action of the user and the requests it sends *)

Import Pages More.

Lemma chat_request_prompt key p q :
  chat_request key p = chat_request key q -> p = q.
Proof.
  intros H. apply (f_equal messages) in H. unfold chat_request in H.
  cbn [messages] in H. congruence.
Qed.

(** Different numbers in a short list. *)
Ltac apart :=
  repeat (apply NoDup_cons_2;
          [ let Hin := fresh "Hin" in
            intros Hin;
            repeat (apply elem_of_cons in Hin as [Hin | Hin];
                    [discriminate Hin |]);
            now apply elem_of_nil in Hin
          | ]);
  apply NoDup_nil_2.

(** Requests whose prompts begin with different characters differ. *)
Lemma prompts_apart key (ps : list (list N)) :
  NoDup (List.map (hd 0) ps) -> NoDup (List.map (chat_request key) ps).
Proof.
  intros H.
  apply (NoDup_fmap_1
           (fun req => match messages req with
                       | [_; (_, prompt)] => hd 0 prompt
                       | _ => 0
                       end)).
  change (NoDup (List.map (fun req => match messages req with
                                      | [_; (_, prompt)] => hd 0 prompt
                                      | _ => 0
                                      end)
                          (List.map (chat_request key) ps))).
  now rewrite List.map_map.
Qed.

Lemma glossary_sends net key term :
  requests (fst (glossary net key term))
  `sublist_of` [chat_request key (glossary_prompt term)].
Proof.
  unfold glossary. destruct (truthy term); [| apply sublist_nil_l].
  pose proof (query_ai_requests net key (glossary_prompt term)) as Hq.
  destruct (query_ai net key (glossary_prompt term)) as [ev v]. cbn [fst] in Hq.
  destruct (json_truthy v); cbn [seq say fst];
    rewrite requests_app, requests_core, Hq; reflexivity.
Qed.

Lemma ai_evaluation_sends net key ui lab_text :
  posts (fst (ai_evaluation net key ui lab_text))
  `sublist_of` [chat_request key (full_prompt lab_text);
                chat_request key (followup_prompt lab_text (user_question ui))].
Proof.
  unfold ai_evaluation.
  destruct (truthy (strip lab_text)); [| apply sublist_nil_l].
  rewrite followup_condition.
  assert (H1 : exists ev r,
            (if analyze_button ui
             then let '(ev, result) := query_ai net key (full_prompt lab_text) in
                  io_bind (emit ev) (fun _ => show_analysis result)
             else emit []) = (ev, r)
            /\ posts ev `sublist_of` [chat_request key (full_prompt lab_text)]).
  { destruct (analyze_button ui).
    - pose proof (query_ai_requests net key (full_prompt lab_text)) as Hq.
      pose proof (show_analysis_quiet
                    (snd (query_ai net key (full_prompt lab_text)))) as Hs.
      destruct (query_ai net key (full_prompt lab_text)) as [ev v].
      cbn [fst snd] in *. destruct (show_analysis v) as [ev' r'].
      cbn [io_bind emit fst] in *. eexists. eexists. split; [reflexivity |].
      now rewrite posts_app, Hq, Hs.
    - eexists. eexists. split; [reflexivity | apply sublist_nil_l]. }
  destruct H1 as (ev1 & r1 & -> & F1).
  destruct r1 as [[] | e]; cbn [io_bind fst];
    [| now apply (sublist_inserts_r [_] _ [_])].
  destruct (truthy (strip (user_question ui))).
  - pose proof (query_ai_requests net key
                  (followup_prompt lab_text (user_question ui))) as Hq.
    destruct (query_ai net key (followup_prompt lab_text (user_question ui)))
      as [ev2 v2].
    cbn [fst] in Hq.
    destruct (json_truthy v2); cbn [io_bind emit fst];
      rewrite ?app_nil_r, !posts_app, ?Hq;
      (apply (sublist_app _ [_] _ [_]); [exact F1 | reflexivity]).
  - cbn [emit]. rewrite app_nil_r. now apply (sublist_inserts_r [_] _ [_]).
Qed.

Lemma analyzer_sends net key uploaded edited ui :
  exists lab_text,
    requests (fst (lab_report_analyzer net key uploaded edited ui))
    `sublist_of` [chat_request key (full_prompt lab_text);
                  chat_request key (followup_prompt lab_text (user_question ui))].
Proof.
  unfold lab_report_analyzer.
  rewrite seq_events, requests_app, read_upload_quiet.
  destruct (snd (read_upload uploaded edited)) as [t | |];
    try (exists []; apply sublist_nil_l).
  exists t. unfold core. cbn [fst app]. rewrite requests_core.
  apply ai_evaluation_sends.
Qed.

(** The requests of a run are among those of a list of at most three
    prompts that begin with different characters. *)
Lemma run_sends net i key :
  OPENROUTER_API_KEY i = Some key ->
  exists prompts,
    requests (fst (main net i)) `sublist_of` List.map (chat_request key) prompts
    /\ NoDup (List.map (hd 0) prompts)
    /\ (length prompts <= 3)%nat.
Proof.
  intros Hkey. unfold main. rewrite Hkey.
  destruct key as [| c key].
  { exists []. split; [apply sublist_nil_l |]. split; [constructor | simpl; lia]. }
  rewrite seq_events, requests_app.
  pose proof (glossary_sends net (c :: key) (term i)) as HG.
  destruct (snd (glossary net (c :: key) (term i))).
  - case_bool_decide.
    + destruct (experiment_sends net (c :: key) (stamp i) (selected_exp i)
                  (experiment_form i)) as [-> | (n & h & ->)].
      * exists [glossary_prompt (term i)].
        split; [now rewrite app_nil_r |].
        split; [apart | simpl; lia].
      * exists [glossary_prompt (term i);
                experiment_prompt n h (materials (experiment_form i))
                                  (procedure (experiment_form i))].
        split; [apply (sublist_app _ [_] _ [_]); [exact HG | reflexivity] |].
        split; [| simpl; lia].
        change (NoDup [0x45; 0x0a]).
        apart.
    + destruct (analyzer_sends net (c :: key) (uploaded_file i) (edited i)
                  (analyzer_clicks i)) as (t & HA).
      exists [glossary_prompt (term i); full_prompt t;
              followup_prompt t (user_question (analyzer_clicks i))].
      split; [apply (sublist_app _ [_] _ [_; _]); [exact HG | exact HA] |].
      split; [| simpl; lia].
      change (NoDup [0x45; 0x59; 0x4c]).
      apart.
  - exists [glossary_prompt (term i)].
    split; [now rewrite app_nil_r |].
    split; [apart | simpl; lia].
  - exists [glossary_prompt (term i)].
    split; [now rewrite app_nil_r |].
    split; [apart | simpl; lia].
Qed.

(** C9, as stated, does not hold: one action can call the client more
    than once. With a report uploaded, a term in the glossary field and
    a question in the question field, one press of "Analyze Report"
    against an endpoint that answers 401 sends three requests, each
    answered by the error about the API key. *)
Lemma one_action_three_requests_counterexample :
  let unauthorized :=
    fun _ : request =>
      Ok {| status_code := 401; text := u "Unauthorized";
            json_body := Raise JSONDecodeError |} in
  let run :=
    main unauthorized
      {| OPENROUTER_API_KEY := Some (u "bad-key");
         app_mode := [0x1F4DD] ++ u " Lab Report Analyzer";
         selected_exp := u "Custom Experiment";
         term := u "osmosis";
         stamp := u "20250101120000";
         experiment_form :=
           {| name_input := []; hypo_area := fun h => h; materials := [];
              procedure := []; submit := false |};
         uploaded_file :=
           Some {| file_ext := u "pdf"; as_pdf := Ok [Ok (u "Title: Osmosis")];
                   as_image := Raise (LibraryError (u "no image")) |};
         edited := fun t => t;
         analyzer_clicks :=
           {| analyze_button := true; ask_button := false;
              user_question := u "Why?" |} |} in
  requests (fst run)
  = [chat_request (u "bad-key") (glossary_prompt (u "osmosis"));
     chat_request (u "bad-key") (full_prompt (u "Title: Osmosis" ++ [NL]));
     chat_request (u "bad-key")
       (followup_prompt (u "Title: Osmosis" ++ [NL]) (u "Why?"))]
  /\ length (requests (fst run)) <> 1%nat
  /\ length (List.filter
               (fun e => match e with
                         | Core (StError InvalidApiKey) => true
                         | _ => false
                         end)
               (fst run)) = 3%nat.
Proof.
  split; [vm_compute; reflexivity |].
  split; [vm_compute; discriminate | vm_compute; reflexivity].
Qed.

(** C9, amended: when the endpoint answers a call of the client with
    401, the call returns no completion ([None]), reports the error that
    is specific to the API key, and has sent its request exactly once;
    in no case does one call send more than one request. One run of the
    script, which is what one action of the user starts, can call the
    client up to three times (glossary term, analysis, question): it
    sends at most three requests and none of them twice. *)
Theorem unauthorized_reported_without_retry
    (net : request -> res response) (api_key prompt : list N) (r : response) :
  net (chat_request api_key prompt) = Ok r ->
  status_code r = 401%Z ->
  query_ai net api_key prompt
  = ([Post (chat_request api_key prompt); StError InvalidApiKey], JNull)
  /\ posts (fst (query_ai net api_key prompt)) = [chat_request api_key prompt]
  /\ (forall net' prompt',
        posts (fst (query_ai net' api_key prompt'))
        = [chat_request api_key prompt'])
  /\ (forall net' i,
        OPENROUTER_API_KEY i = Some api_key ->
        NoDup (requests (fst (main net' i)))
        /\ (length (requests (fst (main net' i))) <= 3)%nat).
Proof.
  intros Hnet Hstatus.
  assert (H : query_ai net api_key prompt
              = ([Post (chat_request api_key prompt); StError InvalidApiKey],
                 JNull)).
  { unfold query_ai, try_post. now rewrite Hnet, Hstatus. }
  split; [exact H |]. split; [now rewrite H |]. split.
  - intros net' prompt'. apply query_ai_requests.
  - intros net' i Hkey.
    destruct (run_sends net' i api_key Hkey) as (prompts & Hsub & Hnd & Hlen).
    split.
    + apply (sublist_NoDup _ _ (prompts_apart api_key prompts Hnd) Hsub).
    + apply sublist_length in Hsub. rewrite length_map in Hsub. lia.
Qed.

Lemma unauthorized_reported_without_retry_witness :
  query_ai
    (fun _ => Ok {| status_code := 401; text := u "Unauthorized";
                    json_body := Raise JSONDecodeError |})
    (u "bad-key") (u "Define osmosis")
  = ([Post (chat_request (u "bad-key") (u "Define osmosis"));
      StError InvalidApiKey], JNull).
Proof.
  apply (unauthorized_reported_without_retry
           (fun _ => Ok {| status_code := 401; text := u "Unauthorized";
                           json_body := Raise JSONDecodeError |})
           (u "bad-key") (u "Define osmosis")
           {| status_code := 401; text := u "Unauthorized";
              json_body := Raise JSONDecodeError |}).
  - reflexivity.
  - reflexivity.
Defined.
